(** * Monte_Carlo: the Metropolis-Hastings sampler and the pi estimators

    A shallow embedding of two notebooks of the repository:

    - [metropolis_hastings] of the statistical-tests notebook
      (Module [MH]);
    - the vectorized and the for-loop pi estimates of
      [Monte_Carlo_integration_extremely_simple_example.ipynb]
      (Module [Pi]).

    Python floats and NumPy float64 values are IEEE-754 binary64 numbers:
    they are modelled by [spec_float] and its operations at precision 53.
    Python integers are [Z].  An exception is an explicit [Raise] result;
    the random source and the standard output are threaded as state. *)

From Stdlib Require Import ZArith List Bool Lia.
From Stdlib Require Import Floats.SpecFloat.
From stdpp Require Import base list.

#[local] Open Scope Z_scope.

(** ** binary64 *)

Module Float64.

Definition float : Type := spec_float.

Definition prec : Z := 53.
Definition emax : Z := 1024.

Definition fadd : float -> float -> float := SFadd prec emax.
Definition fsub : float -> float -> float := SFsub prec emax.
Definition fmul : float -> float -> float := SFmul prec emax.
Definition fdiv : float -> float -> float := SFdiv prec emax.
(** [a < b] on floats: false as soon as one side is NaN. *)
Definition flt : float -> float -> bool := SFltb.
Definition fle : float -> float -> bool := SFleb.

(** Conversion of a Python integer (exact below 2^53). *)
Definition of_int (z : Z) : float := binary_normalize prec emax z 0 false.

Definition zero : float := S754_zero false.
Definition one : float := Eval vm_compute in of_int 1.
Definition four : float := Eval vm_compute in of_int 4.
Definition half : float := Eval vm_compute in fdiv one (of_int 2).
Definition quarter : float := Eval vm_compute in fdiv one four.
Definition minus_one : float := Eval vm_compute in of_int (-1).
Definition neg_infinity : float := S754_infinity true.
Definition nan : float := S754_nan.

Definition is_finite (f : float) : bool :=
  match f with
  | S754_zero _ | S754_finite _ _ _ => true
  | S754_infinity _ | S754_nan => false
  end.

(** [u] lies in the half-open unit interval [0, 1). *)
Definition in_unit (u : float) : Prop :=
  fle zero u = true /\ flt u one = true.

End Float64.

Import Float64.

(** ** Exceptions, and the state-and-exception monad of the notebooks *)

Inductive exn : Type :=
| ValueError
| IndexError
| ZeroDivisionError.

Inductive result (A : Type) : Type :=
| Ok (a : A)
| Raise (e : exn).

Arguments Ok {A} a.
Arguments Raise {A} e.

(** A computation over a world [W]: it ends with a value or an exception,
    and the world it has mutated survives either way. *)
Definition M (W A : Type) : Type := W -> result A * W.

Definition ret {W A} (a : A) : M W A := fun w => (Ok a, w).

Definition bind {W A B} (c : M W A) (k : A -> M W B) : M W B :=
  fun w =>
    match c w with
    | (Ok a, w') => k a w'
    | (Raise e, w') => (Raise e, w')
    end.

Definition lift {W A} (r : result A) : M W A := fun w => (r, w).

Declare Scope py_scope.
Delimit Scope py_scope with py.
Notation "v <- c ;; k" := (bind c (fun v => k))
  (at level 100, c at next level, right associativity) : py_scope.
#[local] Open Scope py_scope.

(** [for i in range(k): locals = body(i, locals)], with [i] starting at
    [i0]. *)
Fixpoint for_range_from {W St} (i0 : nat) (k : nat)
    (body : nat -> St -> M W St) (st : St) : M W St :=
  match k with
  | O => ret st
  | S k' => st' <- body i0 st ;; for_range_from (S i0) k' body st'
  end.

(** ** Arrays *)

(** An array is seen through its elements in C order: the sampler uses
    the shape of a state only through [reshape(2,)], which depends on the
    number of elements alone. *)
Definition ndarray : Type := list float.

Definition numel (a : ndarray) : nat := length a.

(** [a.reshape(2,)]: the two elements, or [ValueError] when the array
    does not hold exactly two. *)
Definition reshape2 (a : ndarray) : result (float * float) :=
  match a with
  | [a0; a1] => Ok (a0, a1)
  | _ => Raise ValueError
  end.

(** An array of shape (2, n), as its two rows. *)
Record matrix2 : Type := { row0 : list float; row1 : list float }.

Definition zeros2 (k : nat) : matrix2 :=
  {| row0 := replicate k zero; row1 := replicate k zero |}.

(** [np.zeros(2 * n).reshape(2, n)]: a negative dimension is a
    [ValueError]. *)
Definition zeros_2_by (n : Z) : result matrix2 :=
  if 2 * n <? 0 then Raise ValueError else Ok (zeros2 (Z.to_nat n)).

(** [c[:, i] = v] for a [v] of shape (2,); an index past the last column
    is an [IndexError]. *)
Definition set_column (i : nat) (v : float * float) (c : matrix2) : result matrix2 :=
  if (i <? length (row0 c))%nat
  then Ok {| row0 := <[i := fst v]> (row0 c); row1 := <[i := snd v]> (row1 c) |}
  else Raise IndexError.

(** [c[:, i]] *)
Definition column (c : matrix2) (i : nat) : option (float * float) :=
  match row0 c !! i, row1 c !! i with
  | Some a, Some b => Some (a, b)
  | _, _ => None
  end.

(** A two-element state as the chain entry it is recorded as. *)
Definition entry_of (a : ndarray) : option (float * float) :=
  match reshape2 a with
  | Ok v => Some v
  | Raise _ => None
  end.

(** What comes before entry [i] of a chain: the entry of the iteration
    before, and the initial state for the first one. *)
Definition entry_before (chain_start : ndarray) (c : matrix2) (i : nat)
  : option (float * float) :=
  match i with
  | O => entry_of chain_start
  | S j => column c j
  end.

(** ** The Metropolis-Hastings sampler *)

Module MH.

(** A caller-supplied function that may draw variates from the shared
    [RandomState] object while it computes its result (the notebook's
    [proposal_density] closes over the same [rng] it hands to the
    sampler). *)
Inductive Rand (A : Type) : Type :=
| Ret (a : A)
| Draw (k : float -> Rand A).

Arguments Ret {A} a.
Arguments Draw {A} k.

(** What the sampler writes on the standard output:
    [Accepted_pct accepted n] stands for the line
    ["Accepted: {(accepted/n)*100:.1f} %"]. *)
Inductive line : Type :=
| Accepted_pct (accepted n : Z).

Section Sampler.

Context {RandomState : Type}.
(** [rng.uniform()] *)
Variable uniform : RandomState -> float * RandomState.
(** [np.log] *)
Variable log : float -> float.

(** The [rng] object the caller passes (and shares with the
    proposal), and the standard output. *)
Record world : Type := { rng : RandomState; stdout : list line }.

Fixpoint sample {A} (p : Rand A) (s : RandomState) : A * RandomState :=
  match p with
  | Ret a => (a, s)
  | Draw k => let (d, s') := uniform s in sample (k d) s'
  end.

(** Calling a function that draws from [rng]. *)
Definition call {A} (p : Rand A) : M world A :=
  fun w =>
    let (a, s') := sample p (rng w) in
    (Ok a, {| rng := s'; stdout := stdout w |}).

Definition rng_uniform : M world float :=
  fun w =>
    let (d, s') := uniform (rng w) in
    (Ok d, {| rng := s'; stdout := stdout w |}).

(** [print(f"Accepted: {(accepted/n)*100:.1f} %")]: the division is
    evaluated first and raises when [n] is 0. *)
Definition print_accepted (accepted n : Z) : M world unit :=
  fun w =>
    if n =? 0 then (Raise ZeroDivisionError, w)
    else (Ok tt, {| rng := rng w; stdout := stdout w ++ [Accepted_pct accepted n] |}).

Variable logtarget : ndarray -> float.
Variable candidate_generating_density : ndarray -> Rand ndarray.

(** The local variables of [metropolis_hastings] that the loop
    updates. *)
Record locals : Type := { x : ndarray; chain : matrix2; accepted : Z }.

(** The test [np.log(rng.uniform()) < logtarget(candidate) - logtarget(x)]
    for a variate [u]. *)
Definition accepts (u : float) (candidate cur : ndarray) : bool :=
  flt (log u) (fsub (logtarget candidate) (logtarget cur)).

(** First half of the loop body: the candidate and the [if]. *)
Definition accept_reject (st : locals) : M world locals :=
  candidate <- call (candidate_generating_density (x st)) ;;
  u <- rng_uniform ;;
  ret (if accepts u candidate (x st)
       then {| x := candidate; chain := chain st; accepted := accepted st + 1 |}
       else st).

(** Second half: [chain[:,i] = x.reshape(2,)]. *)
Definition record (i : nat) (st : locals) : M world locals :=
  v <- lift (reshape2 (x st)) ;;
  c <- lift (set_column i v (chain st)) ;;
  ret {| x := x st; chain := c; accepted := accepted st |}.

Definition iteration (i : nat) (st : locals) : M world locals :=
  st' <- accept_reject st ;;
  record i st'.

Definition initially (chain_start : ndarray) (c : matrix2) : locals :=
  {| x := chain_start; chain := c; accepted := 0 |}.

(** [[
def metropolis_hastings(rng, chain_start, n, logtarget, candidate_generating_density):
    x = chain_start
    chain = np.zeros(2 * n).reshape(2,n)
    accepted = 0
    for i in range(n):
        candidate = candidate_generating_density(x)
        if np.log(rng.uniform()) < logtarget(candidate) - logtarget(x):
            x = candidate
            accepted += 1
        chain[:,i] = x.reshape(2,)
    print(f"Accepted: {(accepted/n)*100:.1f} %")
    return chain
]]
    The argument [rng] is the [rng] of the world; the value of the
    computation is the value of [return]. *)
Definition metropolis_hastings (chain_start : ndarray) (n : Z) : M world matrix2 :=
  c <- lift (zeros_2_by n) ;;
  st <- for_range_from 0 (Z.to_nat n) iteration (initially chain_start c) ;;
  _ <- print_accepted (accepted st) n ;;
  ret (chain st).

(** *** Vocabulary of the statements *)

(** The locals and the world after the first [k] iterations of a run
    of [n] iterations. *)
Definition after (chain_start : ndarray) (n : Z) (k : nat) : M world locals :=
  for_range_from 0 k iteration (initially chain_start (zeros2 (Z.to_nat n))).

(** The value of the counter [accepted] after [k] iterations, when
    the run gets that far. *)
Definition accepted_after (chain_start : ndarray) (n : Z) (k : nat) (w : world)
  : option Z :=
  match after chain_start n k w with
  | (Ok st, _) => Some (accepted st)
  | (Raise _, _) => None
  end.

(** Iteration [i] rejects its candidate: it leaves the counter as it
    found it. *)
Definition rejected_at (chain_start : ndarray) (n : Z) (i : nat) (w : world) : Prop :=
  accepted_after chain_start n (S i) w = accepted_after chain_start n i w.

(** The state held after [k] iterations, as a chain entry. *)
Definition state_after (chain_start : ndarray) (n : Z) (k : nat) (w : world)
  : option (float * float) :=
  match after chain_start n k w with
  | (Ok st, _) => entry_of (x st)
  | (Raise _, _) => None
  end.

(** The proposal answers a two-element state with a two-element
    candidate. *)
Definition keeps_two : Prop :=
  forall cur s, numel cur = 2%nat ->
    numel (fst (sample (candidate_generating_density cur) s)) = 2%nat.

(** The proposal answers a state with a candidate of as many
    elements. *)
Definition keeps_numel : Prop :=
  forall cur s,
    numel (fst (sample (candidate_generating_density cur) s)) = numel cur.

(** Every variate of the source lies in [0, 1). *)
Definition source_in_unit : Prop :=
  forall s, in_unit (fst (uniform s)).

(** [np.log] is below zero on [0, 1). *)
Definition log_negative_on_unit : Prop :=
  forall u, in_unit u -> flt (log u) zero = true.

End Sampler.

Arguments world : clear implicits.

(** Two random sources, of possibly different make, that are in states
    related by [R] hand out the same variates for ever. *)
Definition same_variates {S1 S2 : Type}
    (uniform1 : S1 -> float * S1) (uniform2 : S2 -> float * S2)
    (R : S1 -> S2 -> Prop) : Prop :=
  forall s1 s2, R s1 s2 ->
    fst (uniform1 s1) = fst (uniform2 s2) /\
    R (snd (uniform1 s1)) (snd (uniform2 s2)).

Definition same_world {S1 S2 : Type} (R : S1 -> S2 -> Prop)
    (w1 : world S1) (w2 : world S2) : Prop :=
  R (rng w1) (rng w2) /\ stdout w1 = stdout w2.

(** Two computations end alike: with the same value or the same
    exception, the same printed lines, and sources that go on agreeing. *)
Definition same_outcome {S1 S2 A : Type} (R : S1 -> S2 -> Prop)
    (o1 : result A * world S1) (o2 : result A * world S2) : Prop :=
  fst o1 = fst o2 /\ same_world R (snd o1) (snd o2).

End MH.

(** ** The two pi estimates *)

Module Pi.

Section Estimators.

Context {RandomState : Type}.
(** [rng.uniform(low=0, high=1)] *)
Variable uniform : RandomState -> float * RandomState.

Definition draw : M RandomState float :=
  fun s => let (d, s') := uniform s in (Ok d, s').

Fixpoint uniform_draws (k : nat) (s : RandomState) : list float * RandomState :=
  match k with
  | O => ([], s)
  | S k' =>
      let (d, s1) := uniform s in
      let (ds, s2) := uniform_draws k' s1 in
      (d :: ds, s2)
  end.

(** [rng.uniform(low=0, high=1, size=n)]: [n] variates in the order
    they are drawn; a negative size is a [ValueError]. *)
Definition uniform_size (n : Z) : M RandomState (list float) :=
  fun s =>
    if n <? 0 then (Raise ValueError, s)
    else let (a, s') := uniform_draws (Z.to_nat n) s in (Ok a, s').

(** [u * u + v * v < 1] *)
Definition inside (u v : float) : bool :=
  flt (fadd (fmul u u) (fmul v v)) one.

(** [x * x + y * y < 1] on two arrays of one length. *)
Definition mask (x y : list float) : list bool := zip_with inside x y.

(** [np.sum] of a boolean array. *)
Definition np_sum (m : list bool) : Z :=
  foldr (fun b acc => Z.b2z b + acc) 0 m.

(** [np.int64 / int]: a float64 division, NaN or an infinity (and a
    warning) when the divisor is 0. *)
Definition true_divide (a b : Z) : float := fdiv (of_int a) (of_int b).

(** [int / int] of Python, for operands below 2^53. *)
Definition py_truediv (a b : Z) : result float :=
  if b =? 0 then Raise ZeroDivisionError else Ok (fdiv (of_int a) (of_int b)).

(** The cell "With NumPy's Vectorized Operations": the value of
    [pi_estimate].
[[
x = rng.uniform(low=0, high=1, size=n)
y = rng.uniform(low=0, high=1, size=n)
pi_estimate = (np.sum(x * x + y * y < 1) / n) * 4
]] *)
Definition vectorized (n : Z) : M RandomState float :=
  x <- uniform_size n ;;
  y <- uniform_size n ;;
  ret (fmul (true_divide (np_sum (mask x y)) n) four).

Definition loop_body (i : nat) (count : Z) : M RandomState Z :=
  u <- draw ;;
  v <- draw ;;
  ret (if inside u v then count + 1 else count).

(** The cell "With For-Loop": the value of [pi_est].
[[
count = 0
for i in range(n):
    u = rando.uniform(low=0, high=1)
    v = rando.uniform(low=0, high=1)
    if (u * u + v * v) < 1:
        count += 1
pi_est = (count / n) * 4
]] *)
Definition for_loop (n : Z) : M RandomState float :=
  count <- for_range_from 0 (Z.to_nat n) loop_body 0 ;;
  q <- lift (py_truediv count n) ;;
  ret (fmul q four).

(** The points each cell samples, in the order of their index. *)
Definition points_vectorized (k : nat) (s : RandomState) : list (float * float) :=
  let (x, s1) := uniform_draws k s in
  let (y, _) := uniform_draws k s1 in
  zip x y.

Fixpoint points_for_loop (k : nat) (s : RandomState) : list (float * float) :=
  match k with
  | O => []
  | S k' =>
      let (u, s1) := uniform s in
      let (v, s2) := uniform s1 in
      (u, v) :: points_for_loop k' s2
  end.

(** The estimate as a function of the sampled points: the share of
    the points with [x^2 + y^2 < 1] among [n], times 4. *)
Definition in_quarter_circle (p : float * float) : bool :=
  inside (fst p) (snd p).

Definition inside_count (pts : list (float * float)) : Z :=
  Z.of_nat (length (List.filter in_quarter_circle pts)).

Definition pi_of_points (n : Z) (pts : list (float * float)) : float :=
  fmul (fdiv (of_int (inside_count pts)) (of_int n)) four.

End Estimators.

End Pi.

(** ** Concrete sources, targets and proposals *)

Module Instances.

Import MH.

Definition three_quarters : float := Eval vm_compute in fadd half quarter.

(** A source that repeats the variates 0.25, 0.5, 0.0, 0.75; its state
    counts the draws. *)
Definition cycle_uniform (k : nat) : float * nat :=
  (nth (k mod 4) [quarter; half; zero; three_quarters] zero, S k).

(** The same variates from a state that counts in [Z]. *)
Definition cycle_uniform_Z (z : Z) : float * Z :=
  (nth (Z.to_nat (z mod 4)) [quarter; half; zero; three_quarters] zero, z + 1).

(** A source that replays a recorded tape of variates (and 0.5 once the
    tape is over). *)
Definition tape_uniform (t : list float) : float * list float :=
  match t with
  | [] => (half, [])
  | d :: t' => (d, t')
  end.

(** A stand-in for [np.log] with its sign on [0, 1]: minus infinity at
    0, negative below 1, 0 from 1 on. *)
Definition coarse_log (u : float) : float :=
  match u with
  | S754_zero _ => neg_infinity
  | _ => if flt u one then minus_one else zero
  end.

Definition flat (c : float) : ndarray -> float := fun _ => c.

(** A target whose density vanishes outside the point [[a; b]]. *)
Definition only_at (a b : float) : ndarray -> float :=
  fun p =>
    match p with
    | [p0; p1] => if SFeqb p0 a && SFeqb p1 b then zero else neg_infinity
    | _ => neg_infinity
    end.

Definition stay : ndarray -> Rand ndarray := fun cur => Ret cur.
Definition jump_to (p : ndarray) : ndarray -> Rand ndarray := fun _ => Ret p.
(** A random walk: every coordinate moves by the same fresh variate. *)
Definition walk : ndarray -> Rand ndarray :=
  fun cur => Draw (fun d => Ret (map (fadd d) cur)).

Definition fresh {S} (s : S) : world S := {| rng := s; stdout := [] |}.

(** The same two points, (0.5, 0.75) and (0.25, 0.25), on two tapes: all
    the abscissas and then all the ordinates, and point by point. *)
Definition tape_vec : list float := [half; quarter; three_quarters; quarter].
Definition tape_loop : list float := [half; three_quarters; quarter; quarter].

(** The locals at the start of a run of one iteration from (1, 4). *)
Definition start : locals := initially [one; four] (zeros2 1).

End Instances.

(** ** The cells around the sampler and around the pi estimates *)

(** The state of a random source after [k] draws. *)
Fixpoint advance {RS : Type} (uniform : RS -> float * RS) (k : nat) (s : RS) : RS :=
  match k with
  | O => s
  | S k' => advance uniform k' (snd (uniform s))
  end.

(** [l[::k]] for a step [k] of at least 1, from the element [skip]
    places ahead. *)
Fixpoint stride_from {A : Type} (k skip : nat) (l : list A) : list A :=
  match l with
  | [] => []
  | a :: l' =>
      match skip with
      | O => a :: stride_from k (k - 1) l'
      | S skip' => stride_from k skip' l'
      end
  end.

(** [c[:, b:]] for a bound [b] that is not negative: the columns from
    [b] on, none when the array has fewer. *)
Definition columns_from (b : nat) (c : matrix2) : matrix2 :=
  {| row0 := drop b (row0 c); row1 := drop b (row1 c) |}.

(** [c[:, ::k]]: every [k]-th column from the first; a step of 0 is a
    [ValueError]. *)
Definition columns_step (k : nat) (c : matrix2) : result matrix2 :=
  if (k =? 0)%nat then Raise ValueError
  else Ok {| row0 := stride_from k 0 (row0 c); row1 := stride_from k 0 (row1 c) |}.

Module Cells.

Import MH.

(** The function draws exactly [d] variates, whatever their values. *)
Fixpoint draws_exactly {A : Type} (d : nat) (p : Rand A) : Prop :=
  match p, d with
  | Ret _, O => True
  | Draw k, S d' => forall v, draws_exactly d' (k v)
  | _, _ => False
  end.

Definition two : float := Eval vm_compute in of_int 2.

(** The literal [1.9]: the binary64 number nearest to 19/10. *)
Definition one_point_nine : float := Eval vm_compute in fdiv (of_int 19) (of_int 10).

(** [rng.uniform(low, high)] from the variate [d] that [rng.uniform()]
    would return ([0.0 + 1.0 * d], the double of the generator itself):
    [low + (high - low) * d]. *)
Definition uniform_between (low high d : float) : float :=
  fadd low (fmul (fsub high low) d).

(** One row of
    [mu - (x - mu) + 1.9*rng.uniform(low=-1, high=1, size=2).reshape(2,1)]
    for the entry [m] of [mu], the entry [a] of [x] and the variate [d]. *)
Definition proposal_row (m a d : float) : float :=
  fadd (fsub m (fsub a m)) (fmul one_point_nine (uniform_between minus_one one d)).

(** [proposal_density] on a state [x] of shape (2, 1) with the entries
    [a] and [b], for [mu = np.array([[1], [2]])]. *)
Definition proposal_density (a b : float) : Rand ndarray :=
  Draw (fun d0 => Draw (fun d1 =>
    Ret [proposal_row one a d0; proposal_row two b d1])).

(** A proposal that is [proposal_density] on the states of shape (2, 1). *)
Definition is_proposal_density (cgd : ndarray -> Rand ndarray) : Prop :=
  forall a b, cgd [a; b] = proposal_density a b.

(** [without = chain[:, 10_000:]] *)
Definition without (chain : matrix2) : matrix2 :=
  columns_from (Z.to_nat 10000) chain.

(** [gaps = without[:,::10]] *)
Definition gaps (chain : matrix2) : result matrix2 :=
  columns_step 10 (without chain).

End Cells.

Module PiCells.

Import Pi.

(** [x[m]] for a boolean mask [m] of the length of [x]. *)
Fixpoint select {A : Type} (x : list A) (m : list bool) : list A :=
  match x, m with
  | a :: x', b :: m' => if b then a :: select x' m' else select x' m'
  | _, _ => []
  end.

(** [x[m]]: a mask of another length is an [IndexError]. *)
Definition bool_index {A : Type} (x : list A) (m : list bool) : result (list A) :=
  if (length x =? length m)%nat then Ok (select x m) else Raise IndexError.

(** The points of [plt.scatter(x[mask], y[mask], s=1, c="red")]. *)
Definition scatter_points (x y : list float) : result (list (float * float)) :=
  match bool_index x (mask x y), bool_index y (mask x y) with
  | Ok xs, Ok ys => Ok (zip xs ys)
  | Raise e, _ => Raise e
  | _, Raise e => Raise e
  end.

(** The draws of a list two by two. *)
Fixpoint pair_up {A : Type} (l : list A) : list (A * A) :=
  match l with
  | a :: b :: l' => (a, b) :: pair_up l'
  | _ => []
  end.

Section Cells.

Context {RandomState : Type}.
Variable uniform : RandomState -> float * RandomState.

(** The cell "With NumPy's Vectorized Operations" as a whole: the value
    of [pi_estimate] and the points it plots in red. *)
Definition vectorized_cell (n : Z) : M RandomState (float * list (float * float)) :=
  x <- uniform_size uniform n ;;
  y <- uniform_size uniform n ;;
  pts <- lift (scatter_points x y) ;;
  ret (fmul (true_divide (np_sum (mask x y)) n) four, pts).

(** The two sources [rng_x] and [rng_y] of the timing cell. *)
Definition draw_x : M (RandomState * RandomState) float :=
  fun w => let (d, sx) := uniform (fst w) in (Ok d, (sx, snd w)).

Definition draw_y : M (RandomState * RandomState) float :=
  fun w => let (d, sy) := uniform (snd w) in (Ok d, (fst w, sy)).

Definition uniform_size_x (n : Z) : M (RandomState * RandomState) (list float) :=
  fun w =>
    match uniform_size uniform n (fst w) with
    | (r, sx) => (r, (sx, snd w))
    end.

Definition uniform_size_y (n : Z) : M (RandomState * RandomState) (list float) :=
  fun w =>
    match uniform_size uniform n (snd w) with
    | (r, sy) => (r, (fst w, sy))
    end.

(** [vectorized_stmt]: the value of [mask].
[[
x = rng_x.uniform(low=0, high=1, size=n)
y = rng_y.uniform(low=0, high=1, size=n)
sum_of_squares = x * x + y * y
mask = sum_of_squares < 1
]] *)
Definition vectorized_stmt (n : Z) : M (RandomState * RandomState) (list bool) :=
  x <- uniform_size_x n ;;
  y <- uniform_size_y n ;;
  ret (mask x y).

Definition for_stmt_body (i : nat) (count : Z) : M (RandomState * RandomState) Z :=
  u <- draw_x ;;
  v <- draw_y ;;
  ret (if inside u v then count + 1 else count).

(** [for_stmt]: the value of [count].
[[
count = 0
for i in range(n):
    u = rng_x.uniform(low=0, high=1)
    v = rng_y.uniform(low=0, high=1)
    if (u * u + v * v) < 1:
        count += 1
]] *)
Definition for_stmt (n : Z) : M (RandomState * RandomState) Z :=
  for_range_from 0 (Z.to_nat n) for_stmt_body 0.

(** [timeit(number=number)] on a statement: the statement is executed
    [number] times in one namespace, after one execution of the setup;
    the value is what the last execution leaves in its variable. *)
Fixpoint executed {A : Type} (number : nat) (stmt : M (RandomState * RandomState) A)
    (last : option A) : M (RandomState * RandomState) (option A) :=
  match number with
  | O => ret last
  | S number' => a <- stmt ;; executed number' stmt (Some a)
  end.

End Cells.

End PiCells.

Module MoreInstances.

Import MH Cells.

(** [proposal_density] on the states of two elements, and the state
    itself elsewhere. *)
Definition proposal_density_on_pairs : ndarray -> Rand ndarray :=
  fun cur =>
    match cur with
    | [a; b] => proposal_density a b
    | _ => Ret cur
    end.

(** A target that is plus infinity at the point [[a; b]] and 0
    elsewhere. *)
Definition peak_at (a b : float) : ndarray -> float :=
  fun p =>
    match p with
    | [p0; p1] => if SFeqb p0 a && SFeqb p1 b then S754_infinity false else zero
    | _ => zero
    end.

End MoreInstances.

(** * Facts *)

(** ** binary64 comparisons and differences at the special values *)

Lemma flt_neg_infinity_r (a : float) : flt a neg_infinity = false.
Proof. destruct a as [[]|[]| |[] m e]; reflexivity. Qed.

Lemma flt_nan_r (a : float) : flt a nan = false.
Proof. destruct a as [s|s| |s m e]; reflexivity. Qed.

Lemma fsub_diag_finite (c : float) : is_finite c = true -> fsub c c = zero.
Proof.
  destruct c as [[]|s| |s m e]; simpl; try discriminate; intros _; try reflexivity.
  unfold fsub, SFsub. rewrite Z.sub_diag. reflexivity.
Qed.

Lemma fsub_neg_infinity_finite (c : float) :
  is_finite c = true -> fsub neg_infinity c = neg_infinity.
Proof. destruct c as [s|s| |s m e]; simpl; try discriminate; reflexivity. Qed.

Lemma fsub_neg_infinity_diag : fsub neg_infinity neg_infinity = nan.
Proof. reflexivity. Qed.

(** ** The loop combinator *)

(** A loop of [k + k'] rounds is a loop of [k] rounds followed, when it
    ends well, by a loop of [k'] rounds. *)
Lemma for_range_from_app {W St} (body : nat -> St -> M W St) (k k' : nat) :
  forall (i0 : nat) (st : St) (w : W),
    for_range_from i0 (k + k') body st w =
    match for_range_from i0 k body st w with
    | (Ok st', w') => for_range_from (i0 + k) k' body st' w'
    | (Raise e, w') => (Raise e, w')
    end.
Proof.
  induction k as [|k IH]; intros i0 st w; simpl.
  - unfold ret. rewrite Nat.add_0_r. reflexivity.
  - unfold bind. destruct (body i0 st w) as [[st1|e] w1]; [|reflexivity].
    rewrite IH. replace (S i0 + k)%nat with (i0 + S k)%nat by lia. reflexivity.
Qed.

Lemma for_range_from_last {W St} (body : nat -> St -> M W St) (k : nat)
    (i0 : nat) (st : St) (w : W) :
  for_range_from i0 (S k) body st w =
  match for_range_from i0 k body st w with
  | (Ok st', w') => body (i0 + k)%nat st' w'
  | (Raise e, w') => (Raise e, w')
  end.
Proof.
  replace (S k) with (k + 1)%nat by lia. rewrite for_range_from_app.
  destruct (for_range_from i0 k body st w) as [[st'|e] w']; [|reflexivity].
  simpl. unfold bind, ret. destruct (body (i0 + k)%nat st' w') as [[st2|e] w2]; reflexivity.
Qed.

(** ** One iteration of the sampler *)

Section Iteration.

Import MH.

Context {RandomState : Type}.
Variable uniform : RandomState -> float * RandomState.
Variable log : float -> float.
Variable logtarget : ndarray -> float.
Variable candidate_generating_density : ndarray -> Rand ndarray.

#[local] Abbreviation accepts := (accepts log logtarget).
#[local] Abbreviation accept_reject := (accept_reject uniform log logtarget candidate_generating_density).
#[local] Abbreviation iteration := (iteration uniform log logtarget candidate_generating_density).
#[local] Abbreviation sample := (sample uniform).

Lemma accept_reject_eq (st : locals) (w : world RandomState)
    (cand : ndarray) (s1 : RandomState) (u : float) (s2 : RandomState) :
  sample (candidate_generating_density (x st)) (rng w) = (cand, s1) ->
  uniform s1 = (u, s2) ->
  accept_reject st w =
  (Ok (if accepts u cand (x st)
       then {| x := cand; chain := chain st; accepted := accepted st + 1 |}
       else st),
   {| rng := s2; stdout := stdout w |}).
Proof.
  intros Hc Hu. unfold MH.accept_reject, bind, call, rng_uniform, ret.
  rewrite Hc. simpl. rewrite Hu. reflexivity.
Qed.

Lemma record_ok (i : nat) (st : locals) (w : world RandomState) (a b : float) :
  x st = [a; b] ->
  (i < length (row0 (chain st)))%nat ->
  record i st w =
  (Ok {| x := [a; b];
         chain := {| row0 := <[i := a]> (row0 (chain st));
                     row1 := <[i := b]> (row1 (chain st)) |};
         accepted := accepted st |}, w).
Proof.
  intros Hx Hi. unfold record, bind, lift, ret, set_column. rewrite Hx. simpl.
  apply Nat.ltb_lt in Hi. rewrite Hi. reflexivity.
Qed.

Lemma reshape2_raises (a : ndarray) :
  numel a <> 2%nat -> reshape2 a = Raise ValueError.
Proof.
  destruct a as [|a0 [|a1 [|a2 l]]]; simpl; intros H; try reflexivity.
  contradiction H. reflexivity.
Qed.

Lemma record_raises (i : nat) (st : locals) (w : world RandomState) :
  numel (x st) <> 2%nat -> record i st w = (Raise ValueError, w).
Proof.
  intros H. unfold record, bind, lift. rewrite (reshape2_raises _ H). reflexivity.
Qed.

Lemma numel_two (a : ndarray) :
  numel a = 2%nat -> exists a0 a1, a = [a0; a1].
Proof.
  destruct a as [|a0 [|a1 [|a2 l]]]; simpl; try discriminate. eauto.
Qed.

End Iteration.

(** ** The loop of the sampler on two-element states *)

Section Loop.

Import MH.

Context {RandomState : Type}.
Variable uniform : RandomState -> float * RandomState.
Variable log : float -> float.
Variable logtarget : ndarray -> float.
Variable candidate_generating_density : ndarray -> Rand ndarray.

#[local] Abbreviation accepts := (accepts log logtarget).
#[local] Abbreviation accept_reject :=
  (accept_reject uniform log logtarget candidate_generating_density).
#[local] Abbreviation iteration :=
  (iteration uniform log logtarget candidate_generating_density).
#[local] Abbreviation sample := (sample uniform).
#[local] Abbreviation keeps_two := (keeps_two uniform candidate_generating_density).
#[local] Abbreviation after :=
  (after uniform log logtarget candidate_generating_density).
#[local] Abbreviation metropolis_hastings :=
  (metropolis_hastings uniform log logtarget candidate_generating_density).

Lemma column_set (r0 r1 : list float) (i : nat) (a b : float) :
  (i < length r0)%nat -> (i < length r1)%nat ->
  column {| row0 := <[i := a]> r0; row1 := <[i := b]> r1 |} i = Some (a, b).
Proof.
  intros H0 H1. unfold column. simpl.
  rewrite !list_lookup_insert_eq by assumption. reflexivity.
Qed.

Lemma column_set_other (r0 r1 : list float) (i j : nat) (a b : float) :
  i <> j ->
  column {| row0 := <[i := a]> r0; row1 := <[i := b]> r1 |} j =
  column {| row0 := r0; row1 := r1 |} j.
Proof.
  intros H. unfold column. simpl.
  rewrite !list_lookup_insert_ne by assumption. reflexivity.
Qed.

(** An iteration on a two-element state records the state it ends with
    in column [i] and touches no other column. *)
Lemma iteration_ok (i : nat) (st : locals) (w : world RandomState) :
  keeps_two ->
  numel (x st) = 2%nat ->
  (i < length (row0 (chain st)))%nat ->
  exists st1 w1 a b,
    accept_reject st w = (Ok st1, w1) /\
    x st1 = [a; b] /\
    (accepted st1 = accepted st /\ x st1 = x st \/ accepted st1 = accepted st + 1) /\
    stdout w1 = stdout w /\
    iteration i st w =
    (Ok {| x := [a; b];
           chain := {| row0 := <[i := a]> (row0 (chain st));
                       row1 := <[i := b]> (row1 (chain st)) |};
           accepted := accepted st1 |}, w1).
Proof.
  intros Hk Hx Hi.
  destruct (sample (candidate_generating_density (x st)) (rng w)) as [cand s1] eqn:Hc.
  destruct (uniform s1) as [u s2] eqn:Hu.
  pose proof (accept_reject_eq uniform log logtarget _ st w cand s1 u s2 Hc Hu) as Har.
  assert (Hcand : numel cand = 2%nat).
  { specialize (Hk (x st) (rng w) Hx). rewrite Hc in Hk. exact Hk. }
  set (st1 := if accepts u cand (x st)
              then {| x := cand; chain := chain st; accepted := accepted st + 1 |}
              else st) in *.
  assert (H1 : numel (x st1) = 2%nat /\ chain st1 = chain st /\
               (accepted st1 = accepted st /\ x st1 = x st \/
                accepted st1 = accepted st + 1)).
  { subst st1. destruct (accepts u cand (x st)); simpl; auto. }
  destruct H1 as (Hx1 & Hch & Hacc).
  destruct (numel_two _ Hx1) as (a & b & Hab).
  exists st1, {| rng := s2; stdout := stdout w |}, a, b.
  split; [exact Har|]. split; [exact Hab|]. split; [exact Hacc|]. split; [reflexivity|].
  unfold MH.iteration, bind. rewrite Har.
  rewrite (record_ok i st1 _ a b Hab) by (rewrite Hch; exact Hi).
  rewrite Hch. reflexivity.
Qed.

(** The loop invariant: on two-element states the loop ends well, keeps
    the shape of the buffer, moves the counter by at most one per round,
    prints nothing and leaves the columns before [i] alone. *)
Lemma loop_ok (N : nat) :
  keeps_two ->
  forall (k i : nat) (st : locals) (w : world RandomState),
    (i + k <= N)%nat ->
    numel (x st) = 2%nat ->
    length (row0 (chain st)) = N ->
    length (row1 (chain st)) = N ->
    exists st' w',
      for_range_from i k iteration st w = (Ok st', w') /\
      numel (x st') = 2%nat /\
      length (row0 (chain st')) = N /\
      length (row1 (chain st')) = N /\
      accepted st <= accepted st' <= accepted st + Z.of_nat k /\
      stdout w' = stdout w /\
      forall j, (j < i)%nat -> column (chain st') j = column (chain st) j.
Proof.
  intros Hk. induction k as [|k IH]; intros i st w Hik Hx H0 H1.
  - exists st, w. simpl. unfold ret. repeat split; auto; lia.
  - destruct (iteration_ok i st w Hk Hx ltac:(lia))
      as (st1 & w1 & a & b & _ & _ & Hacc & Hout & Hit).
    simpl. unfold bind. rewrite Hit.
    set (st2 := {| x := [a; b];
                   chain := {| row0 := <[i := a]> (row0 (chain st));
                               row1 := <[i := b]> (row1 (chain st)) |};
                   accepted := accepted st1 |}).
    destruct (IH (S i) st2 w1) as (st' & w' & Hrun & Hx' & H0' & H1' & Ha' & Ho' & Hcol).
    + lia.
    + reflexivity.
    + simpl. rewrite length_insert. exact H0.
    + simpl. rewrite length_insert. exact H1.
    + exists st', w'. split; [exact Hrun|]. simpl in Ha'.
      repeat split; auto; try lia; try congruence.
      intros j Hj. rewrite Hcol by lia. destruct (chain st) as [r0 r1].
      apply column_set_other. lia.
Qed.

(** A run of [n > 0] iterations is its loop followed by the print. *)
Lemma mh_unfold (chain_start : ndarray) (n : Z) (w : world RandomState) :
  0 < n ->
  metropolis_hastings chain_start n w =
  match after chain_start n (Z.to_nat n) w with
  | (Ok st, w1) =>
      (Ok (chain st),
       {| rng := rng w1; stdout := stdout w1 ++ [Accepted_pct (accepted st) n] |})
  | (Raise e, w1) => (Raise e, w1)
  end.
Proof.
  intros Hn. unfold MH.metropolis_hastings, MH.after, bind, lift, zeros_2_by.
  destruct (2 * n <? 0) eqn:E; [apply Z.ltb_lt in E; lia|].
  destruct (for_range_from 0 (Z.to_nat n) iteration _ w) as [[st|e] w1]; [|reflexivity].
  unfold print_accepted, ret.
  destruct (n =? 0) eqn:E0; [apply Z.eqb_eq in E0; lia|]. reflexivity.
Qed.

Lemma after_S (chain_start : ndarray) (n : Z) (k : nat) (w : world RandomState) :
  after chain_start n (S k) w =
  match after chain_start n k w with
  | (Ok st, w') => iteration k st w'
  | (Raise e, w') => (Raise e, w')
  end.
Proof. unfold MH.after. rewrite for_range_from_last. reflexivity. Qed.

Lemma after_ok (chain_start : ndarray) (n : Z) (k : nat) (w : world RandomState) :
  keeps_two ->
  numel chain_start = 2%nat ->
  (k <= Z.to_nat n)%nat ->
  exists st w',
    after chain_start n k w = (Ok st, w') /\
    numel (x st) = 2%nat /\
    length (row0 (chain st)) = Z.to_nat n /\
    length (row1 (chain st)) = Z.to_nat n /\
    0 <= accepted st <= Z.of_nat k /\
    stdout w' = stdout w.
Proof.
  intros Hk Hx Hle. unfold MH.after.
  destruct (loop_ok (Z.to_nat n) Hk k 0 (initially chain_start (zeros2 (Z.to_nat n))) w)
    as (st & w' & Hrun & Hx' & H0 & H1 & Ha & Ho & _);
    try (simpl; rewrite ?length_replicate; auto; lia).
  exists st, w'. simpl in Ha. repeat split; auto; lia.
Qed.

(** Column [j] of the buffer holds, from iteration [j] on, the state
    that iteration [j] ended with. *)
Lemma column_after (chain_start : ndarray) (n : Z) (j k : nat) (w : world RandomState)
    (st : locals) (w' : world RandomState) :
  keeps_two ->
  numel chain_start = 2%nat ->
  (j < k)%nat -> (k <= Z.to_nat n)%nat ->
  after chain_start n k w = (Ok st, w') ->
  exists stj wj a b,
    after chain_start n (S j) w = (Ok stj, wj) /\
    x stj = [a; b] /\
    column (chain st) j = Some (a, b).
Proof.
  intros Hk Hx Hjk Hkn Hrun.
  destruct (after_ok chain_start n j w Hk Hx ltac:(lia))
    as (st0 & w0 & Hrun0 & Hx0 & H0 & H1 & _ & _).
  destruct (iteration_ok j st0 w0 Hk Hx0 ltac:(lia))
    as (st1 & w1 & a & b & _ & _ & _ & _ & Hit).
  pose proof (after_S chain_start n j w) as HS. rewrite Hrun0, Hit in HS.
  eexists _, w1, a, b. split; [exact HS|]. split; [reflexivity|].
  revert Hrun. unfold MH.after in *.
  replace k with (S j + (k - S j))%nat by lia.
  rewrite for_range_from_app, HS. simpl.
  match goal with |- for_range_from _ _ _ ?s _ = _ -> _ => set (stj := s) end.
  destruct (loop_ok (Z.to_nat n) Hk (k - S j) (S j) stj w1)
    as (st' & w'' & Hrun' & _ & _ & _ & _ & _ & Hcol);
    try (simpl; rewrite ?length_insert; auto; lia).
  rewrite Hrun'. intros [= <- <-]. rewrite Hcol by lia.
  subst stj. simpl. apply column_set; lia.
Qed.

End Loop.


(** ** What a run of the sampler returns and prints *)

Section Run.

Import MH.

Context {RandomState : Type}.
Variable uniform : RandomState -> float * RandomState.
Variable log : float -> float.
Variable logtarget : ndarray -> float.
Variable candidate_generating_density : ndarray -> Rand ndarray.

#[local] Abbreviation keeps_two := (keeps_two uniform candidate_generating_density).
#[local] Abbreviation after :=
  (after uniform log logtarget candidate_generating_density).
#[local] Abbreviation accepted_after :=
  (accepted_after uniform log logtarget candidate_generating_density).
#[local] Abbreviation state_after :=
  (state_after uniform log logtarget candidate_generating_density).
#[local] Abbreviation rejected_at :=
  (rejected_at uniform log logtarget candidate_generating_density).
#[local] Abbreviation metropolis_hastings :=
  (metropolis_hastings uniform log logtarget candidate_generating_density).

(** The counter and the state across iteration [k]: the counter stays
    and the state with it, or the counter moves up by one. *)
Lemma counter_step (chain_start : ndarray) (n : Z) (k : nat) (w : world RandomState) :
  keeps_two ->
  numel chain_start = 2%nat ->
  (k < Z.to_nat n)%nat ->
  exists st w1 st' w2,
    after chain_start n k w = (Ok st, w1) /\
    after chain_start n (S k) w = (Ok st', w2) /\
    0 <= accepted st <= Z.of_nat k /\
    (accepted st' = accepted st /\ x st' = x st \/ accepted st' = accepted st + 1).
Proof.
  intros Hk Hx Hlt.
  destruct (after_ok uniform log logtarget _ chain_start n k w Hk Hx ltac:(lia))
    as (st & w1 & Hrun & Hx1 & H0 & H1 & Ha & _).
  destruct (iteration_ok uniform log logtarget _ k st w1 Hk Hx1 ltac:(lia))
    as (st1 & w2 & a & b & _ & Hab & Hacc & _ & Hit).
  pose proof (after_S uniform log logtarget candidate_generating_density
                chain_start n k w) as HS.
  rewrite Hrun, Hit in HS.
  eexists st, w1, _, w2. split; [exact Hrun|]. split; [exact HS|]. split; [exact Ha|].
  simpl. rewrite <- Hab. exact Hacc.
Qed.

(** C1. For every n > 0, on two-element states, a run ends with a chain
    of exactly n entries (both rows of the returned buffer have length n
    and each of the n columns is filled), whatever the number of accepted
    proposals; and the entry of an iteration that rejects its candidate
    equals the entry before it (the initial state for the first
    iteration). *)
Theorem chain_length_invariant (chain_start : ndarray) (n : Z) (w : world RandomState) :
  0 < n ->
  numel chain_start = 2%nat ->
  keeps_two ->
  exists c w',
    metropolis_hastings chain_start n w = (Ok c, w') /\
    length (row0 c) = Z.to_nat n /\
    length (row1 c) = Z.to_nat n /\
    (forall i, (i < Z.to_nat n)%nat -> is_Some (column c i)) /\
    (forall i, (i < Z.to_nat n)%nat ->
       rejected_at chain_start n i w ->
       column c i = entry_before chain_start c i).
Proof.
  intros Hn Hx Hk.
  destruct (after_ok uniform log logtarget _ chain_start n (Z.to_nat n) w Hk Hx ltac:(lia))
    as (st & w1 & Hrun & Hx1 & H0 & H1 & Ha & Ho).
  rewrite (mh_unfold uniform log logtarget _ chain_start n w Hn), Hrun.
  eexists _, _. split; [reflexivity|]. split; [exact H0|]. split; [exact H1|].
  assert (Hcol : forall i, (i < Z.to_nat n)%nat ->
            exists sti wi a b, after chain_start n (S i) w = (Ok sti, wi) /\
                               x sti = [a; b] /\ column (chain st) i = Some (a, b)).
  { intros i Hi.
    exact (column_after uniform log logtarget _ chain_start n i (Z.to_nat n) w st w1
             Hk Hx Hi ltac:(lia) Hrun). }
  split.
  - intros i Hi. destruct (Hcol i Hi) as (sti & wi & a & b & _ & _ & Hc).
    rewrite Hc. eauto.
  - intros i Hi Hrej.
    destruct (Hcol i Hi) as (sti & wi & a & b & HSi & Hab & Hc).
    destruct (counter_step chain_start n i w Hk Hx Hi)
      as (sp & wp & sti' & wi' & Hp & HSi' & _ & Hstep).
    rewrite HSi in HSi'. injection HSi' as <- <-.
    unfold MH.rejected_at, MH.accepted_after in Hrej. rewrite HSi, Hp in Hrej.
    injection Hrej as Hrej.
    destruct Hstep as [[_ Hsame]|Hup]; [|lia].
    rewrite Hc. destruct i as [|j]; simpl.
    + unfold MH.after in Hp. simpl in Hp. unfold ret in Hp. injection Hp as <- <-.
      simpl in Hsame. rewrite <- Hsame, Hab. reflexivity.
    + destruct (Hcol j ltac:(lia)) as (stj & wj & a' & b' & HSj & Hab' & Hc').
      rewrite Hp in HSj. injection HSj as <- <-.
      rewrite Hc'. congruence.
Qed.

(** C2, as the code has it. For n > 0, on two-element states, the value
    returned to the caller is the chain alone: a buffer of n columns
    whose column i is the state after iteration i (the initial state is
    not among them). The count of accepted proposals is not part of the
    returned value; it reaches the caller only through the line printed
    on the standard output, as the rate accepted / n. *)
Theorem returns_chain_prints_rate (chain_start : ndarray) (n : Z) (w : world RandomState) :
  0 < n ->
  numel chain_start = 2%nat ->
  keeps_two ->
  exists c w' a,
    metropolis_hastings chain_start n w = (Ok c, w') /\
    length (row0 c) = Z.to_nat n /\
    length (row1 c) = Z.to_nat n /\
    (forall i, (i < Z.to_nat n)%nat ->
       is_Some (column c i) /\ column c i = state_after chain_start n (S i) w) /\
    accepted_after chain_start n (Z.to_nat n) w = Some a /\
    stdout w' = stdout w ++ [Accepted_pct a n].
Proof.
  intros Hn Hx Hk.
  destruct (after_ok uniform log logtarget _ chain_start n (Z.to_nat n) w Hk Hx ltac:(lia))
    as (st & w1 & Hrun & Hx1 & H0 & H1 & Ha & Ho).
  rewrite (mh_unfold uniform log logtarget _ chain_start n w Hn).
  unfold MH.accepted_after. rewrite Hrun.
  eexists _, _, _. split; [reflexivity|]. split; [exact H0|]. split; [exact H1|].
  split; [|split; [reflexivity|simpl; rewrite Ho; reflexivity]].
  intros i Hi.
  destruct (column_after uniform log logtarget _ chain_start n i (Z.to_nat n) w st w1
              Hk Hx Hi ltac:(lia) Hrun) as (sti & wi & a & b & HSi & Hab & Hc).
  unfold MH.state_after. rewrite HSi, Hc, Hab. split; [eauto|reflexivity].
Qed.

(** Whatever the shapes, an iteration that ends well has moved the
    counter by at most one, and an iteration prints nothing. *)
Lemma iteration_any (i : nat) (st : locals) (w : world RandomState) :
  stdout (snd (iteration uniform log logtarget candidate_generating_density i st w)) =
  stdout w /\
  forall st' w',
    iteration uniform log logtarget candidate_generating_density i st w = (Ok st', w') ->
    accepted st' = accepted st \/ accepted st' = accepted st + 1.
Proof.
  destruct (MH.sample uniform (candidate_generating_density (x st)) (rng w))
    as [cand s1] eqn:Hc.
  destruct (uniform s1) as [u s2] eqn:Hu.
  unfold MH.iteration, bind.
  rewrite (accept_reject_eq uniform log logtarget _ st w cand s1 u s2 Hc Hu).
  match goal with |- context [record i ?s ?v] => set (st1 := s); set (w1 := v) end.
  assert (Hacc : accepted st1 = accepted st \/ accepted st1 = accepted st + 1).
  { subst st1. destruct (MH.accepts log logtarget u cand (x st)); simpl; auto. }
  unfold record, bind, lift, ret.
  destruct (reshape2 (x st1)) as [v|e]; [|split; [reflexivity|discriminate]].
  destruct (set_column i v (chain st1)) as [c|e]; [|split; [reflexivity|discriminate]].
  split; [reflexivity|]. intros st' w' [= <- <-]. exact Hacc.
Qed.

Lemma after_stdout (chain_start : ndarray) (n : Z) (k : nat) (w : world RandomState) :
  stdout (snd (after chain_start n k w)) = stdout w.
Proof.
  induction k as [|k IH]; [reflexivity|].
  rewrite (after_S uniform log logtarget candidate_generating_density chain_start n k w).
  destruct (after chain_start n k w) as [[st|e] w1]; simpl in IH; [|exact IH].
  rewrite (proj1 (iteration_any k st w1)). exact IH.
Qed.

Lemma counter_step_any (chain_start : ndarray) (n : Z) (k : nat) (w : world RandomState)
    (ak' : Z) :
  accepted_after chain_start n (S k) w = Some ak' ->
  exists ak,
    accepted_after chain_start n k w = Some ak /\ (ak' = ak \/ ak' = ak + 1).
Proof.
  unfold MH.accepted_after.
  rewrite (after_S uniform log logtarget candidate_generating_density chain_start n k w).
  destruct (after chain_start n k w) as [[st|e] w1]; [|discriminate].
  destruct (iteration uniform log logtarget candidate_generating_density k st w1)
    as [[st'|e] w'] eqn:Hit; [|discriminate].
  intros [= <-]. exists (accepted st). split; [reflexivity|].
  exact (proj2 (iteration_any k st w1) st' w' Hit).
Qed.

Lemma counter_bound_any (chain_start : ndarray) (n : Z) (w : world RandomState) (k : nat) :
  forall ak, accepted_after chain_start n k w = Some ak -> 0 <= ak <= Z.of_nat k.
Proof.
  induction k as [|k IH]; intros ak Hk.
  - unfold MH.accepted_after, MH.after in Hk. simpl in Hk. injection Hk as <-. lia.
  - destruct (counter_step_any chain_start n k w ak Hk) as (a0 & H0 & Hstep).
    specialize (IH a0 H0). lia.
Qed.

(** C8. For every n > 0 and every run of the sampler, the counter of
    accepted proposals starts at 0, is moved up by at most one per
    iteration, and lies in [0, k] after k iterations; a run that ends
    well reports a count in [0, n] (and a run that fails prints nothing);
    on two-element states the run does end well. *)
Theorem accepted_within_bounds (chain_start : ndarray) (n : Z) (w : world RandomState) :
  0 < n ->
  accepted_after chain_start n 0 w = Some 0 /\
  (forall k ak', accepted_after chain_start n (S k) w = Some ak' ->
     exists ak, accepted_after chain_start n k w = Some ak /\
                (ak' = ak \/ ak' = ak + 1)) /\
  (forall k ak, accepted_after chain_start n k w = Some ak -> 0 <= ak <= Z.of_nat k) /\
  match metropolis_hastings chain_start n w with
  | (Ok c, w') =>
      exists a, accepted_after chain_start n (Z.to_nat n) w = Some a /\
                stdout w' = stdout w ++ [Accepted_pct a n] /\
                0 <= a <= n
  | (Raise e, w') => stdout w' = stdout w
  end /\
  (numel chain_start = 2%nat -> keeps_two ->
   exists c w', metropolis_hastings chain_start n w = (Ok c, w')).
Proof.
  intros Hn. split; [reflexivity|].
  split; [intros k ak'; apply counter_step_any|].
  split; [intros k ak; apply counter_bound_any|].
  rewrite (mh_unfold uniform log logtarget _ chain_start n w Hn).
  pose proof (after_stdout chain_start n (Z.to_nat n) w) as Ho.
  pose proof (counter_bound_any chain_start n w (Z.to_nat n)) as Hb.
  unfold MH.accepted_after in Hb |- *.
  split.
  - destruct (after chain_start n (Z.to_nat n) w) as [[st|e] w1]; simpl in Ho; [|exact Ho].
    exists (accepted st). split; [reflexivity|]. split; [simpl; rewrite Ho; reflexivity|].
    specialize (Hb (accepted st) eq_refl). lia.
  - intros Hx Hk.
    destruct (after_ok uniform log logtarget _ chain_start n (Z.to_nat n) w Hk Hx ltac:(lia))
      as (st & w1 & Hrun & _).
    rewrite Hrun. eauto.
Qed.

(** *** Targets that decide every test *)

#[local] Abbreviation sample := (sample uniform).
#[local] Abbreviation accepts := (accepts log logtarget).
#[local] Abbreviation accept_reject :=
  (accept_reject uniform log logtarget candidate_generating_density).
#[local] Abbreviation iteration :=
  (iteration uniform log logtarget candidate_generating_density).

(** C7. On an iteration where the log-target is minus infinity both at
    the current state and at the candidate, the log-ratio is NaN, the
    comparison with it is false whatever the variate, and the candidate
    is rejected: state, counter and buffer are as before the test, and
    the iteration records the unchanged state. *)
Theorem nan_ratio_rejects (st : locals) (w : world RandomState) :
  logtarget (x st) = neg_infinity ->
  logtarget (fst (sample (candidate_generating_density (x st)) (rng w))) = neg_infinity ->
  fsub (logtarget (fst (sample (candidate_generating_density (x st)) (rng w))))
       (logtarget (x st)) = nan /\
  (forall u, accepts u (fst (sample (candidate_generating_density (x st)) (rng w)))
               (x st) = false) /\
  exists w',
    accept_reject st w = (Ok st, w') /\
    stdout w' = stdout w /\
    forall i, iteration i st w = record i st w'.
Proof.
  intros Hcur Hcand.
  destruct (sample (candidate_generating_density (x st)) (rng w)) as [cand s1] eqn:Hc.
  destruct (uniform s1) as [u s2] eqn:Hu. simpl in *.
  assert (Hno : forall v, accepts v cand (x st) = false).
  { intros v. unfold MH.accepts. rewrite Hcand, Hcur, fsub_neg_infinity_diag.
    apply flt_nan_r. }
  split; [rewrite Hcand, Hcur; reflexivity|]. split; [exact Hno|].
  pose proof (accept_reject_eq uniform log logtarget _ st w cand s1 u s2 Hc Hu) as Har.
  rewrite Hno in Har.
  exists {| rng := s2; stdout := stdout w |}. split; [exact Har|]. split; [reflexivity|].
  intros i. unfold MH.iteration, bind. rewrite Har. reflexivity.
Qed.

Lemma insert_next_replicate (a z : float) (i m : nat) :
  <[i := a]> (replicate i a ++ z :: replicate m z) = replicate (S i) a ++ replicate m z.
Proof.
  rewrite (replicate_S_end i a), <- app_assoc.
  rewrite insert_app_r_alt by (rewrite length_replicate; lia).
  rewrite length_replicate, Nat.sub_diag. reflexivity.
Qed.

(** While no candidate is accepted, the loop writes the same entry
    column after column. *)
Lemma loop_never_accepts (a b : float) :
  is_finite (logtarget [a; b]) = true ->
  (forall s, logtarget (fst (sample (candidate_generating_density [a; b]) s)) = neg_infinity) ->
  forall (k i m : nat) (acc : Z) (w : world RandomState),
  exists w',
    for_range_from i k iteration
      {| x := [a; b];
         chain := {| row0 := replicate i a ++ replicate (k + m) zero;
                     row1 := replicate i b ++ replicate (k + m) zero |};
         accepted := acc |} w =
    (Ok {| x := [a; b];
           chain := {| row0 := replicate (i + k) a ++ replicate m zero;
                       row1 := replicate (i + k) b ++ replicate m zero |};
           accepted := acc |}, w') /\
    stdout w' = stdout w.
Proof.
  intros Hfin Hcand. induction k as [|k IH]; intros i m acc w.
  - exists w. simpl. unfold ret. rewrite Nat.add_0_r. auto.
  - simpl for_range_from. unfold bind.
    destruct (sample (candidate_generating_density [a; b]) (rng w)) as [cand s1] eqn:Hc.
    destruct (uniform s1) as [u s2] eqn:Hu.
    assert (Hno : accepts u cand [a; b] = false).
    { unfold MH.accepts. specialize (Hcand (rng w)). rewrite Hc in Hcand. simpl in Hcand.
      rewrite Hcand, (fsub_neg_infinity_finite _ Hfin). apply flt_neg_infinity_r. }
    unfold MH.iteration at 1, bind.
    match goal with
    | |- context [accept_reject ?s w] =>
        rewrite (accept_reject_eq uniform log logtarget candidate_generating_density
                   s w cand s1 u s2 Hc Hu)
    end.
    simpl x. rewrite Hno.
    rewrite (record_ok i _ _ a b) by
      (simpl; rewrite ?length_app; simpl; rewrite ?length_replicate; auto; lia).
    simpl. rewrite !insert_next_replicate.
    destruct (IH (S i) m acc {| rng := s2; stdout := stdout w |}) as (w' & Hrun & Ho).
    exists w'. rewrite Hrun. replace (i + S k)%nat with (S i + k)%nat by lia.
    split; [reflexivity|exact Ho].
Qed.

(** C6. If the log-target is finite at the initial state and minus
    infinity at every candidate, then for every n > 0 no proposal is
    accepted (the reported count is 0) and the returned chain is n copies
    of the initial state. *)
Theorem never_accept_target (a b : float) (n : Z) (w : world RandomState) :
  0 < n ->
  is_finite (logtarget [a; b]) = true ->
  (forall cur s,
     logtarget (fst (sample (candidate_generating_density cur) s)) = neg_infinity) ->
  exists w',
    metropolis_hastings [a; b] n w =
    (Ok {| row0 := replicate (Z.to_nat n) a; row1 := replicate (Z.to_nat n) b |}, w') /\
    stdout w' = stdout w ++ [Accepted_pct 0 n].
Proof.
  intros Hn Hfin Hcand.
  rewrite (mh_unfold uniform log logtarget _ [a; b] n w Hn).
  destruct (loop_never_accepts a b Hfin (Hcand [a; b]) (Z.to_nat n) 0 0 0 w)
    as (w1 & Hrun & Ho).
  unfold MH.after, initially, zeros2.
  simpl in Hrun. rewrite Nat.add_0_r, !app_nil_r in Hrun. rewrite Hrun.
  eexists. split; [reflexivity|]. simpl. rewrite Ho. reflexivity.
Qed.

(** On a flat finite target every test succeeds. *)
Lemma flat_accepts (c : float) :
  is_finite c = true ->
  (forall p, logtarget p = c) ->
  source_in_unit uniform ->
  log_negative_on_unit log ->
  forall s cand cur, accepts (fst (uniform s)) cand cur = true.
Proof.
  intros Hfin Hflat Hsrc Hlog s cand cur. unfold MH.accepts.
  rewrite !Hflat, (fsub_diag_finite _ Hfin). apply Hlog, Hsrc.
Qed.

(** C5. If the log-target is a constant (finite) function, the variates
    lie in [0, 1) and the logarithm is below zero there, then for every
    n > 0, on two-element states, every one of the n proposals is
    accepted: the counter after k iterations is k and the reported count
    is n. *)
Theorem flat_target_accepts_all (c : float) (chain_start : ndarray) (n : Z)
    (w : world RandomState) :
  0 < n ->
  numel chain_start = 2%nat ->
  keeps_two ->
  is_finite c = true ->
  (forall p, logtarget p = c) ->
  source_in_unit uniform ->
  log_negative_on_unit log ->
  exists ch w',
    metropolis_hastings chain_start n w = (Ok ch, w') /\
    stdout w' = stdout w ++ [Accepted_pct n n] /\
    forall k, (k <= Z.to_nat n)%nat ->
      accepted_after chain_start n k w = Some (Z.of_nat k).
Proof.
  intros Hn Hx Hk Hfin Hflat Hsrc Hlog.
  assert (Hall : forall k, (k <= Z.to_nat n)%nat ->
            accepted_after chain_start n k w = Some (Z.of_nat k)).
  { induction k as [|k IH]; intros Hle; [reflexivity|].
    specialize (IH ltac:(lia)).
    destruct (after_ok uniform log logtarget _ chain_start n k w Hk Hx ltac:(lia))
      as (st & w1 & Hrun & Hx1 & H0 & H1 & _ & _).
    unfold MH.accepted_after in IH |- *. rewrite Hrun in IH. injection IH as IH.
    rewrite (after_S uniform log logtarget _ chain_start n k w), Hrun.
    destruct (iteration_ok uniform log logtarget _ k st w1 Hk Hx1 ltac:(lia))
      as (st1 & w2 & a & b & Har & _ & _ & _ & Hit).
    rewrite Hit. simpl.
    destruct (sample (candidate_generating_density (x st)) (rng w1)) as [cand s1] eqn:Hc.
    destruct (uniform s1) as [u s2] eqn:Hu.
    rewrite (accept_reject_eq uniform log logtarget _ st w1 cand s1 u s2 Hc Hu) in Har.
    pose proof (flat_accepts c Hfin Hflat Hsrc Hlog s1 cand (x st)) as Hacc.
    rewrite Hu in Hacc. simpl in Hacc. rewrite Hacc in Har.
    injection Har as <- _. simpl. f_equal. lia. }
  destruct (after_ok uniform log logtarget _ chain_start n (Z.to_nat n) w Hk Hx ltac:(lia))
    as (st & w1 & Hrun & _ & _ & _ & _ & Ho).
  rewrite (mh_unfold uniform log logtarget _ chain_start n w Hn).
  pose proof (Hall (Z.to_nat n) ltac:(lia)) as Hlast.
  unfold MH.accepted_after in Hlast. rewrite Hrun in Hlast. injection Hlast as Hlast.
  rewrite Hrun. eexists _, _. split; [reflexivity|]. split; [|exact Hall].
  simpl. rewrite Ho, Hlast, Z2Nat.id by lia. reflexivity.
Qed.

(** *** Arguments outside the contract *)

#[local] Abbreviation keeps_numel := (keeps_numel uniform candidate_generating_density).

(** C9. The sampler supports states of two elements only: for every
    n >= 1, an initial state whose number of elements is not 2 and a
    proposal that keeps the number of elements, the first iteration
    passes its accept/reject test and then raises ValueError at the
    chain-recording step; the run ends there, with no chain returned and
    nothing printed. *)
Theorem only_two_elements_supported (chain_start : ndarray) (n : Z)
    (w : world RandomState) :
  1 <= n ->
  numel chain_start <> 2%nat ->
  keeps_numel ->
  exists st1 w1,
    accept_reject (initially chain_start (zeros2 (Z.to_nat n))) w = (Ok st1, w1) /\
    record 0 st1 w1 = (Raise ValueError, w1) /\
    stdout w1 = stdout w /\
    metropolis_hastings chain_start n w = (Raise ValueError, w1).
Proof.
  intros Hn Hx Hk.
  set (st0 := initially chain_start (zeros2 (Z.to_nat n))).
  destruct (sample (candidate_generating_density (x st0)) (rng w)) as [cand s1] eqn:Hc.
  destruct (uniform s1) as [u s2] eqn:Hu.
  pose proof (accept_reject_eq uniform log logtarget _ st0 w cand s1 u s2 Hc Hu) as Har.
  set (st1 := if accepts u cand (x st0)
              then {| x := cand; chain := chain st0; accepted := accepted st0 + 1 |}
              else st0) in *.
  assert (Hbad : numel (x st1) <> 2%nat).
  { subst st1. destruct (accepts u cand (x st0)); simpl; [|exact Hx].
    specialize (Hk chain_start (rng w)). simpl in Hc. rewrite Hc in Hk. simpl in Hk.
    rewrite Hk. exact Hx. }
  pose proof (record_raises 0 st1 {| rng := s2; stdout := stdout w |} Hbad) as Hrec.
  exists st1, {| rng := s2; stdout := stdout w |}.
  split; [exact Har|]. split; [exact Hrec|]. split; [reflexivity|].
  rewrite (mh_unfold uniform log logtarget _ chain_start n w ltac:(lia)).
  unfold MH.after. fold st0.
  destruct (Z.to_nat n) as [|m] eqn:En; [lia|].
  simpl for_range_from. unfold bind, MH.iteration at 1, bind. rewrite Har, Hrec.
  reflexivity.
Qed.

(** C3, as the code has it. For every n <= 0 the run fails and returns
    no chain, without a draw from the random source, a call of the
    proposal or a printed line: with ValueError (a negative dimension for
    the buffer) when n < 0, and with ZeroDivisionError (the rate
    accepted / n of the printed line) when n = 0. *)
Theorem nonpositive_n_fails (chain_start : ndarray) (n : Z) (w : world RandomState) :
  n <= 0 ->
  metropolis_hastings chain_start n w =
  (Raise (if n <? 0 then ValueError else ZeroDivisionError), w).
Proof.
  intros Hn. unfold MH.metropolis_hastings, bind, lift, zeros_2_by.
  destruct (n <? 0) eqn:E.
  - apply Z.ltb_lt in E. destruct (2 * n <? 0) eqn:E2; [reflexivity|].
    apply Z.ltb_ge in E2. lia.
  - apply Z.ltb_ge in E. assert (n = 0) as -> by lia. reflexivity.
Qed.

End Run.

(** ** Two runs on sources that hand out the same variates *)

Section Determinism.

Import MH.

Context {S1 S2 : Type}.
Variable uniform1 : S1 -> float * S1.
Variable uniform2 : S2 -> float * S2.
Variable R : S1 -> S2 -> Prop.
Variable log : float -> float.
Variable logtarget : ndarray -> float.
Variable candidate_generating_density : ndarray -> Rand ndarray.

Hypothesis HR : same_variates uniform1 uniform2 R.

Lemma sample_related {A} (p : Rand A) :
  forall s1 s2, R s1 s2 ->
    fst (sample uniform1 p s1) = fst (sample uniform2 p s2) /\
    R (snd (sample uniform1 p s1)) (snd (sample uniform2 p s2)).
Proof using HR.
  induction p as [a|k IH]; intros s1 s2 Hs; simpl; [auto|].
  destruct (HR s1 s2 Hs) as [Hd Hs'].
  destruct (uniform1 s1) as [d1 s1'], (uniform2 s2) as [d2 s2']. simpl in *. subst d2.
  apply IH. exact Hs'.
Qed.

Lemma bind_related {A B} (c1 : M (world S1) A) (c2 : M (world S2) A)
    (k1 : A -> M (world S1) B) (k2 : A -> M (world S2) B)
    (w1 : world S1) (w2 : world S2) :
  same_outcome R (c1 w1) (c2 w2) ->
  (forall a w1' w2', same_world R w1' w2' -> same_outcome R (k1 a w1') (k2 a w2')) ->
  same_outcome R (bind c1 k1 w1) (bind c2 k2 w2).
Proof.
  intros [Hv Hw] Hk. unfold bind.
  destruct (c1 w1) as [r1 w1'], (c2 w2) as [r2 w2']. simpl in *. subst r2.
  destruct r1 as [a|e]; [apply Hk; exact Hw|]. split; [reflexivity|exact Hw].
Qed.

Lemma lift_related {A} (r : result A) (w1 : world S1) (w2 : world S2) :
  same_world R w1 w2 -> same_outcome R (lift r w1) (lift r w2).
Proof. intros Hw. split; [reflexivity|exact Hw]. Qed.

Lemma iteration_related (i : nat) (st : locals) (w1 : world S1) (w2 : world S2) :
  same_world R w1 w2 ->
  same_outcome R
    (iteration uniform1 log logtarget candidate_generating_density i st w1)
    (iteration uniform2 log logtarget candidate_generating_density i st w2).
Proof using HR.
  intros Hw. unfold iteration, accept_reject, record.
  apply bind_related.
  - apply bind_related.
    + destruct Hw as [Hs Ho]. unfold call.
      pose proof (sample_related (candidate_generating_density (x st)) _ _ Hs) as [Hc Hs'].
      destruct (sample uniform1 _ (rng w1)) as [c1 s1'],
               (sample uniform2 _ (rng w2)) as [c2 s2'].
      simpl in *. subst c2. split; [reflexivity|]. split; [exact Hs'|exact Ho].
    + intros cand v1 v2 Hv. apply bind_related.
      * destruct Hv as [Hs Ho]. unfold rng_uniform.
        destruct (HR _ _ Hs) as [Hd Hs'].
        destruct (uniform1 (rng v1)) as [d1 s1'], (uniform2 (rng v2)) as [d2 s2'].
        simpl in *. subst d2. split; [reflexivity|]. split; [exact Hs'|exact Ho].
      * intros u v1' v2' Hv'. split; [reflexivity|exact Hv'].
  - intros st' v1 v2 Hv. apply bind_related; [apply lift_related; exact Hv|].
    intros v v1' v2' Hv'. apply bind_related; [apply lift_related; exact Hv'|].
    intros c v1'' v2'' Hv''. split; [reflexivity|exact Hv''].
Qed.

Lemma loop_related (k : nat) :
  forall (i : nat) (st : locals) (w1 : world S1) (w2 : world S2),
    same_world R w1 w2 ->
    same_outcome R
      (for_range_from i k (iteration uniform1 log logtarget candidate_generating_density)
         st w1)
      (for_range_from i k (iteration uniform2 log logtarget candidate_generating_density)
         st w2).
Proof using HR.
  induction k as [|k IH]; intros i st w1 w2 Hw; simpl.
  - split; [reflexivity|exact Hw].
  - apply bind_related; [apply iteration_related; exact Hw|].
    intros st' v1 v2 Hv. apply IH. exact Hv.
Qed.

Lemma mh_related (chain_start : ndarray) (n : Z) (w1 : world S1) (w2 : world S2) :
  same_world R w1 w2 ->
  same_outcome R
    (metropolis_hastings uniform1 log logtarget candidate_generating_density
       chain_start n w1)
    (metropolis_hastings uniform2 log logtarget candidate_generating_density
       chain_start n w2).
Proof using HR.
  intros Hw. unfold metropolis_hastings.
  apply bind_related; [apply lift_related; exact Hw|].
  intros c v1 v2 Hv. apply bind_related; [apply loop_related; exact Hv|].
  intros st v1' v2' Hv'. apply bind_related.
  - unfold print_accepted. destruct (n =? 0); [split; [reflexivity|exact Hv']|].
    destruct Hv' as [Hs Ho]. split; [reflexivity|]. split; [exact Hs|].
    simpl. rewrite Ho. reflexivity.
  - intros _ v1'' v2'' Hv''. split; [reflexivity|exact Hv''].
Qed.

(** C4. Two runs of the sampler with the same initial state, n,
    log-target and proposal, on random sources that hand out the same
    sequence of variates, end alike: the same chain, entry for entry and
    bit for bit (or the same exception), the same printed count of
    accepted proposals, and sources that still agree. *)
Theorem same_variates_same_chain (chain_start : ndarray) (n : Z)
    (w1 : world S1) (w2 : world S2) :
  R (rng w1) (rng w2) ->
  stdout w1 = stdout w2 ->
  let run1 := metropolis_hastings uniform1 log logtarget candidate_generating_density
                chain_start n w1 in
  let run2 := metropolis_hastings uniform2 log logtarget candidate_generating_density
                chain_start n w2 in
  fst run1 = fst run2 /\
  stdout (snd run1) = stdout (snd run2) /\
  R (rng (snd run1)) (rng (snd run2)).
Proof using HR.
  intros Hs Ho run1 run2.
  destruct (mh_related chain_start n w1 w2 (conj Hs Ho)) as (Hv & Hs' & Ho').
  auto.
Qed.

End Determinism.

(** ** The two pi estimates as one function of the sampled points *)

Section PiEstimates.

Import Pi.

Context {RandomState : Type}.
Variable uniform : RandomState -> float * RandomState.

#[local] Abbreviation uniform_draws := (uniform_draws uniform).
#[local] Abbreviation points_vectorized := (points_vectorized uniform).
#[local] Abbreviation points_for_loop := (points_for_loop uniform).

#[local] Abbreviation loop_body := (loop_body uniform).

Lemma inside_count_cons (p : float * float) (pts : list (float * float)) :
  inside_count (p :: pts) = Z.b2z (in_quarter_circle p) + inside_count pts.
Proof.
  unfold inside_count. simpl. destruct (in_quarter_circle p); simpl length; simpl Z.b2z; lia.
Qed.

(** The sum of the mask counts the points inside the quarter circle. *)
Lemma np_sum_mask (x : list float) :
  forall y, np_sum (mask x y) = inside_count (zip x y).
Proof.
  induction x as [|u x IH]; intros [|v y]; try reflexivity.
  unfold mask in *. simpl zip_with. rewrite inside_count_cons. simpl np_sum.
  rewrite IH. reflexivity.
Qed.

(** So does the counter of the loop. *)
Lemma loop_counts (k : nat) :
  forall (i : nat) (count : Z) (s : RandomState),
  exists s',
    for_range_from i k loop_body count s = (Ok (count + inside_count (points_for_loop k s)), s').
Proof.
  induction k as [|k IH]; intros i count s.
  - exists s. simpl. unfold ret, inside_count. simpl. rewrite Z.add_0_r. reflexivity.
  - simpl for_range_from. unfold bind, Pi.loop_body at 1, bind, draw, ret. simpl Pi.points_for_loop.
    destruct (uniform s) as [u s1]. destruct (uniform s1) as [v s2].
    destruct (IH (S i) (if inside u v then count + 1 else count) s2) as (s' & Hrun).
    exists s'. rewrite Hrun, inside_count_cons. unfold in_quarter_circle. simpl.
    destruct (inside u v); simpl Z.b2z; do 2 f_equal; lia.
Qed.

Lemma uniform_draws_length (k : nat) :
  forall s, length (fst (uniform_draws k s)) = k.
Proof.
  induction k as [|k IH]; intros s; simpl; [reflexivity|].
  destruct (uniform s) as [d s1]. specialize (IH s1).
  destruct (uniform_draws k s1) as [ds s2]. simpl in *. lia.
Qed.

(** C10. For every n > 0 the vectorized cell and the for-loop cell
    compute the same function of the points they sample: the number of
    points with x^2 + y^2 < 1, divided by n, times 4. Hence, when the two
    cells sample the same sequence of points, their estimates are
    equal. *)
Theorem pi_estimates_agree (n : Z) (s_vec s_loop : RandomState) :
  0 < n ->
  points_vectorized (Z.to_nat n) s_vec = points_for_loop (Z.to_nat n) s_loop ->
  (exists s', vectorized uniform n s_vec =
              (Ok (pi_of_points n (points_vectorized (Z.to_nat n) s_vec)), s')) /\
  (exists s', for_loop uniform n s_loop =
              (Ok (pi_of_points n (points_for_loop (Z.to_nat n) s_loop)), s')) /\
  fst (vectorized uniform n s_vec) = fst (for_loop uniform n s_loop).
Proof.
  intros Hn Hpts.
  assert (Hv : exists s', vectorized uniform n s_vec =
              (Ok (pi_of_points n (points_vectorized (Z.to_nat n) s_vec)), s')).
  { unfold vectorized, bind, uniform_size, ret, Pi.points_vectorized, true_divide.
    destruct (n <? 0) eqn:E; [apply Z.ltb_lt in E; lia|].
    destruct (uniform_draws (Z.to_nat n) s_vec) as [x s1].
    destruct (uniform_draws (Z.to_nat n) s1) as [y s2].
    exists s2. rewrite np_sum_mask. reflexivity. }
  assert (Hl : exists s', for_loop uniform n s_loop =
              (Ok (pi_of_points n (points_for_loop (Z.to_nat n) s_loop)), s')).
  { unfold for_loop, bind, lift, py_truediv, ret.
    destruct (loop_counts (Z.to_nat n) 0 0 s_loop) as (s' & Hrun).
    rewrite Hrun. destruct (n =? 0) eqn:E; [apply Z.eqb_eq in E; lia|].
    exists s'. reflexivity. }
  split; [exact Hv|]. split; [exact Hl|].
  destruct Hv as (s1 & ->), Hl as (s2 & ->). simpl. rewrite Hpts. reflexivity.
Qed.

End PiEstimates.

(** * Concrete runs *)

Section Concrete.

Import MH Instances.

(** ** The concrete sources and functions meet the assumptions *)

Lemma cycle_in_unit : source_in_unit cycle_uniform.
Proof.
  intros k. unfold cycle_uniform. cbn [fst].
  assert (Hlt : (k mod 4 < 4)%nat) by (apply Nat.mod_upper_bound; lia).
  destruct (k mod 4)%nat as [|[|[|[|r]]]]; try lia; split; reflexivity.
Qed.

Lemma coarse_log_negative : log_negative_on_unit coarse_log.
Proof.
  intros u [_ H1]. unfold coarse_log.
  destruct u as [s|s| |s m e]; try reflexivity; rewrite H1; reflexivity.
Qed.

Lemma walk_keeps_numel {S} (uniform : S -> float * S) : keeps_numel uniform walk.
Proof.
  intros cur s. unfold walk. simpl. destruct (uniform s) as [d s']. simpl.
  unfold numel. apply length_map.
Qed.

Lemma walk_keeps_two {S} (uniform : S -> float * S) : keeps_two uniform walk.
Proof. intros cur s H. rewrite walk_keeps_numel. exact H. Qed.

Lemma stay_keeps_two {S} (uniform : S -> float * S) : keeps_two uniform stay.
Proof. intros cur s H. exact H. Qed.

Lemma jump_to_away (p : ndarray) {S} (uniform : S -> float * S)
    (logtarget : ndarray -> float) :
  logtarget p = neg_infinity ->
  forall cur s, logtarget (fst (sample uniform (jump_to p cur) s)) = neg_infinity.
Proof. intros H cur s. exact H. Qed.

(** The counter in [nat] and the counter in [Z] hand out the same
    variates as long as they count alike. *)
Lemma cycles_agree :
  same_variates cycle_uniform cycle_uniform_Z (fun k z => Z.of_nat k = z).
Proof.
  intros k z <-. unfold cycle_uniform, cycle_uniform_Z. cbn [fst snd]. split; [|lia].
  f_equal. change 4 with (Z.of_nat 4). rewrite <- Nat2Z.inj_mod, Nat2Z.id. reflexivity.
Qed.

(** ** The theorems at concrete inputs *)

Lemma chain_length_invariant_witness :
  0 < 3 /\
  numel [one; four] = 2%nat /\
  keeps_two cycle_uniform walk /\
  exists c w',
    metropolis_hastings cycle_uniform coarse_log (only_at one four) walk
      [one; four] 3 (fresh 0%nat) = (Ok c, w') /\
    length (row0 c) = Z.to_nat 3 /\
    length (row1 c) = Z.to_nat 3 /\
    (forall i, (i < Z.to_nat 3)%nat -> is_Some (column c i)) /\
    (forall i, (i < Z.to_nat 3)%nat ->
       rejected_at cycle_uniform coarse_log (only_at one four) walk
         [one; four] 3 i (fresh 0%nat) ->
       column c i = entry_before [one; four] c i).
Proof.
  split; [lia|]. split; [reflexivity|]. split; [exact (walk_keeps_two _)|].
  apply (chain_length_invariant cycle_uniform coarse_log (only_at one four) walk
           [one; four] 3 (fresh 0%nat));
    [lia | reflexivity | exact (walk_keeps_two _)].
Defined.

Lemma returns_chain_prints_rate_witness :
  0 < 3 /\
  numel [one; four] = 2%nat /\
  keeps_two cycle_uniform walk /\
  exists c w' a,
    metropolis_hastings cycle_uniform coarse_log (only_at one four) walk
      [one; four] 3 (fresh 0%nat) = (Ok c, w') /\
    length (row0 c) = Z.to_nat 3 /\
    length (row1 c) = Z.to_nat 3 /\
    (forall i, (i < Z.to_nat 3)%nat ->
       is_Some (column c i) /\
       column c i = state_after cycle_uniform coarse_log (only_at one four) walk
                      [one; four] 3 (S i) (fresh 0%nat)) /\
    accepted_after cycle_uniform coarse_log (only_at one four) walk
      [one; four] 3 (Z.to_nat 3) (fresh 0%nat) = Some a /\
    stdout w' = stdout (fresh 0%nat) ++ [Accepted_pct a 3].
Proof.
  split; [lia|]. split; [reflexivity|]. split; [exact (walk_keeps_two _)|].
  apply (returns_chain_prints_rate cycle_uniform coarse_log (only_at one four) walk
           [one; four] 3 (fresh 0%nat));
    [lia | reflexivity | exact (walk_keeps_two _)].
Defined.

(** C2 as stated fails: the returned value does not carry the count of
    accepted proposals. Two runs of one iteration from the same initial
    state, source and target, one with a proposal that is accepted and
    one with a proposal that is rejected, return the same chain while
    they count 1 and 0 accepted proposals; so no function of the returned
    value gives the count. *)
Lemma accepted_count_not_returned :
  let run cgd :=
    metropolis_hastings cycle_uniform coarse_log (only_at one four) cgd
      [one; four] 1 (fresh 0%nat) in
  fst (run stay) = Ok {| row0 := [one]; row1 := [four] |} /\
  fst (run (jump_to [four; one])) = Ok {| row0 := [one]; row1 := [four] |} /\
  stdout (snd (run stay)) = [Accepted_pct 1 1] /\
  stdout (snd (run (jump_to [four; one]))) = [Accepted_pct 0 1] /\
  ~ exists count_of : result matrix2 -> Z,
      forall cgd, stdout (snd (run cgd)) = [Accepted_pct (count_of (fst (run cgd))) 1].
Proof.
  intros run.
  assert (H1 : run stay =
               (Ok {| row0 := [one]; row1 := [four] |},
                {| rng := 1%nat; stdout := [Accepted_pct 1 1] |})) by reflexivity.
  assert (H2 : run (jump_to [four; one]) =
               (Ok {| row0 := [one]; row1 := [four] |},
                {| rng := 1%nat; stdout := [Accepted_pct 0 1] |})) by reflexivity.
  rewrite H1, H2. simpl. repeat split.
  intros [count_of H].
  pose proof (H stay) as Ha. pose proof (H (jump_to [four; one])) as Hb.
  rewrite H1 in Ha. rewrite H2 in Hb. simpl in Ha, Hb. congruence.
Qed.

Lemma accepted_within_bounds_witness :
  0 < 3 /\
  accepted_after cycle_uniform coarse_log (only_at one four) walk
    [one; four] 3 0 (fresh 0%nat) = Some 0 /\
  (forall k ak',
     accepted_after cycle_uniform coarse_log (only_at one four) walk
       [one; four] 3 (S k) (fresh 0%nat) = Some ak' ->
     exists ak,
       accepted_after cycle_uniform coarse_log (only_at one four) walk
         [one; four] 3 k (fresh 0%nat) = Some ak /\
       (ak' = ak \/ ak' = ak + 1)) /\
  (forall k ak,
     accepted_after cycle_uniform coarse_log (only_at one four) walk
       [one; four] 3 k (fresh 0%nat) = Some ak ->
     0 <= ak <= Z.of_nat k) /\
  match metropolis_hastings cycle_uniform coarse_log (only_at one four) walk
          [one; four] 3 (fresh 0%nat) with
  | (Ok c, w') =>
      exists a,
        accepted_after cycle_uniform coarse_log (only_at one four) walk
          [one; four] 3 (Z.to_nat 3) (fresh 0%nat) = Some a /\
        stdout w' = stdout (fresh 0%nat) ++ [Accepted_pct a 3] /\
        0 <= a <= 3
  | (Raise e, w') => stdout w' = stdout (fresh 0%nat)
  end /\
  (numel [one; four] = 2%nat -> keeps_two cycle_uniform walk ->
   exists c w',
     metropolis_hastings cycle_uniform coarse_log (only_at one four) walk
       [one; four] 3 (fresh 0%nat) = (Ok c, w')).
Proof.
  split; [lia|].
  apply (accepted_within_bounds cycle_uniform coarse_log (only_at one four) walk
           [one; four] 3 (fresh 0%nat)); lia.
Defined.

Lemma nonpositive_n_fails_witness :
  -2 <= 0 /\
  metropolis_hastings cycle_uniform coarse_log (flat zero) walk [one; four] (-2)
    (fresh 0%nat) =
  (Raise (if -2 <? 0 then ValueError else ZeroDivisionError), fresh 0%nat).
Proof.
  split; [lia|].
  apply (nonpositive_n_fails cycle_uniform coarse_log (flat zero) walk [one; four] (-2)
           (fresh 0%nat)); lia.
Defined.

(** C3 as stated fails at n = 0: the buffer is allocated, the loop runs
    no iteration, and the run fails on the division accepted / n of the
    printed line, with ZeroDivisionError; this is not the exception of an
    invalid argument, ValueError, which only a negative n meets. *)
Lemma zero_iterations_division_error :
  metropolis_hastings cycle_uniform coarse_log (flat zero) walk [one; four] 0
    (fresh 0%nat) = (Raise ZeroDivisionError, fresh 0%nat) /\
  fst (metropolis_hastings cycle_uniform coarse_log (flat zero) walk [one; four] 0
         (fresh 0%nat)) <> Raise ValueError.
Proof. split; [reflexivity|]. simpl. discriminate. Qed.

Lemma same_variates_same_chain_witness :
  same_variates cycle_uniform cycle_uniform_Z (fun k z => Z.of_nat k = z) /\
  Z.of_nat (rng (fresh 5%nat)) = rng (fresh 5) /\
  stdout (fresh 5%nat) = stdout (fresh 5) /\
  let run1 := metropolis_hastings cycle_uniform coarse_log (only_at one four) walk
                [one; four] 4 (fresh 5%nat) in
  let run2 := metropolis_hastings cycle_uniform_Z coarse_log (only_at one four) walk
                [one; four] 4 (fresh 5) in
  fst run1 = fst run2 /\
  stdout (snd run1) = stdout (snd run2) /\
  Z.of_nat (rng (snd run1)) = rng (snd run2).
Proof.
  split; [exact cycles_agree|]. split; [reflexivity|]. split; [reflexivity|].
  apply (same_variates_same_chain cycle_uniform cycle_uniform_Z
           (fun k z => Z.of_nat k = z) coarse_log (only_at one four) walk cycles_agree
           [one; four] 4 (fresh 5%nat) (fresh 5)); reflexivity.
Defined.

Lemma flat_target_accepts_all_witness :
  0 < 3 /\
  numel [one; four] = 2%nat /\
  keeps_two cycle_uniform walk /\
  is_finite minus_one = true /\
  (forall p, flat minus_one p = minus_one) /\
  source_in_unit cycle_uniform /\
  log_negative_on_unit coarse_log /\
  exists ch w',
    metropolis_hastings cycle_uniform coarse_log (flat minus_one) walk
      [one; four] 3 (fresh 0%nat) = (Ok ch, w') /\
    stdout w' = stdout (fresh 0%nat) ++ [Accepted_pct 3 3] /\
    forall k, (k <= Z.to_nat 3)%nat ->
      accepted_after cycle_uniform coarse_log (flat minus_one) walk
        [one; four] 3 k (fresh 0%nat) = Some (Z.of_nat k).
Proof.
  split; [lia|]. split; [reflexivity|]. split; [exact (walk_keeps_two _)|].
  split; [reflexivity|]. split; [reflexivity|]. split; [exact cycle_in_unit|].
  split; [exact coarse_log_negative|].
  apply (flat_target_accepts_all cycle_uniform coarse_log (flat minus_one) walk
           minus_one [one; four] 3 (fresh 0%nat));
    [lia | reflexivity | exact (walk_keeps_two _) | reflexivity | reflexivity
    | exact cycle_in_unit | exact coarse_log_negative].
Defined.

Lemma never_accept_target_witness :
  0 < 3 /\
  is_finite (only_at one four [one; four]) = true /\
  (forall cur s,
     only_at one four (fst (sample cycle_uniform (jump_to [four; one] cur) s)) =
     neg_infinity) /\
  exists w',
    metropolis_hastings cycle_uniform coarse_log (only_at one four) (jump_to [four; one])
      [one; four] 3 (fresh 0%nat) =
    (Ok {| row0 := replicate (Z.to_nat 3) one; row1 := replicate (Z.to_nat 3) four |}, w') /\
    stdout w' = stdout (fresh 0%nat) ++ [Accepted_pct 0 3].
Proof.
  split; [lia|]. split; [reflexivity|].
  split; [exact (jump_to_away [four; one] cycle_uniform (only_at one four) eq_refl)|].
  apply (never_accept_target cycle_uniform coarse_log (only_at one four)
           (jump_to [four; one]) one four 3 (fresh 0%nat));
    [lia | reflexivity
    | exact (jump_to_away [four; one] cycle_uniform (only_at one four) eq_refl)].
Defined.

Lemma nan_ratio_rejects_witness :
  flat neg_infinity (x start) = neg_infinity /\
  flat neg_infinity (fst (sample cycle_uniform (walk (x start)) (rng (fresh 0%nat)))) =
  neg_infinity /\
  fsub (flat neg_infinity (fst (sample cycle_uniform (walk (x start)) (rng (fresh 0%nat)))))
       (flat neg_infinity (x start)) = nan /\
  (forall u,
     accepts coarse_log (flat neg_infinity) u
       (fst (sample cycle_uniform (walk (x start)) (rng (fresh 0%nat)))) (x start) = false) /\
  exists w',
    accept_reject cycle_uniform coarse_log (flat neg_infinity) walk start (fresh 0%nat) =
    (Ok start, w') /\
    stdout w' = stdout (fresh 0%nat) /\
    forall i, iteration cycle_uniform coarse_log (flat neg_infinity) walk i start
                (fresh 0%nat) = record i start w'.
Proof.
  split; [reflexivity|]. split; [reflexivity|].
  apply (nan_ratio_rejects cycle_uniform coarse_log (flat neg_infinity) walk start
           (fresh 0%nat)); reflexivity.
Defined.

Lemma only_two_elements_supported_witness :
  1 <= 2 /\
  numel [one] <> 2%nat /\
  keeps_numel cycle_uniform walk /\
  exists st1 w1,
    accept_reject cycle_uniform coarse_log (flat zero) walk
      (initially [one] (zeros2 (Z.to_nat 2))) (fresh 0%nat) = (Ok st1, w1) /\
    record 0 st1 w1 = (Raise ValueError, w1) /\
    stdout w1 = stdout (fresh 0%nat) /\
    metropolis_hastings cycle_uniform coarse_log (flat zero) walk [one] 2 (fresh 0%nat) =
    (Raise ValueError, w1).
Proof.
  split; [lia|]. split; [discriminate|]. split; [exact (walk_keeps_numel _)|].
  apply (only_two_elements_supported cycle_uniform coarse_log (flat zero) walk
           [one] 2 (fresh 0%nat));
    [lia | discriminate | exact (walk_keeps_numel _)].
Defined.

Lemma pi_estimates_agree_witness :
  0 < 2 /\
  Pi.points_vectorized tape_uniform (Z.to_nat 2) tape_vec =
  Pi.points_for_loop tape_uniform (Z.to_nat 2) tape_loop /\
  (exists s', Pi.vectorized tape_uniform 2 tape_vec =
              (Ok (Pi.pi_of_points 2 (Pi.points_vectorized tape_uniform (Z.to_nat 2) tape_vec)),
               s')) /\
  (exists s', Pi.for_loop tape_uniform 2 tape_loop =
              (Ok (Pi.pi_of_points 2 (Pi.points_for_loop tape_uniform (Z.to_nat 2) tape_loop)),
               s')) /\
  fst (Pi.vectorized tape_uniform 2 tape_vec) = fst (Pi.for_loop tape_uniform 2 tape_loop).
Proof.
  split; [lia|]. split; [reflexivity|].
  apply (pi_estimates_agree tape_uniform 2 tape_vec tape_loop); [lia | reflexivity].
Defined.

(** ** Where the assumptions of the theorems matter *)

(** A target that is constant at minus infinity is not accepted once:
    the ratio is NaN at every test. *)
Example flat_infinite_target_rejects_all :
  metropolis_hastings cycle_uniform coarse_log (flat neg_infinity) walk
    [one; four] 3 (fresh 0%nat) =
  (Ok {| row0 := [one; one; one]; row1 := [four; four; four] |},
   {| rng := 6%nat; stdout := [Accepted_pct 0 3] |}).
Proof. reflexivity. Qed.

(** A proposal that answers a one-element state with a two-element
    candidate lets the run leave the one-element initial state at the
    first accepted candidate, before anything is recorded. *)
Example resizing_proposal_escapes :
  metropolis_hastings cycle_uniform coarse_log (flat zero) (jump_to [one; one])
    [one] 2 (fresh 0%nat) =
  (Ok {| row0 := [one; one]; row1 := [one; one] |},
   {| rng := 2%nat; stdout := [Accepted_pct 2 2] |}).
Proof. reflexivity. Qed.

(** With n = 0 the two pi cells part ways: the NumPy division gives NaN,
    the division of Python integers raises. *)
Example pi_cells_differ_at_zero :
  fst (Pi.vectorized tape_uniform 0 tape_vec) = Ok nan /\
  fst (Pi.for_loop tape_uniform 0 tape_loop) = Raise ZeroDivisionError.
Proof. split; reflexivity. Qed.

End Concrete.

(** * Further facts on the sampler *)

Section Edges.

Import MH.

Context {RandomState : Type}.
Variable uniform : RandomState -> float * RandomState.
Variable log : float -> float.
Variable logtarget : ndarray -> float.
Variable candidate_generating_density : ndarray -> Rand ndarray.

#[local] Abbreviation sample := (sample uniform).
#[local] Abbreviation accepts := (accepts log logtarget).
#[local] Abbreviation accept_reject :=
  (accept_reject uniform log logtarget candidate_generating_density).
#[local] Abbreviation iteration :=
  (iteration uniform log logtarget candidate_generating_density).
#[local] Abbreviation after :=
  (after uniform log logtarget candidate_generating_density).
#[local] Abbreviation metropolis_hastings :=
  (metropolis_hastings uniform log logtarget candidate_generating_density).

(** ** The exceptions of a run *)





(** ** Log-targets at the special values *)

Lemma accepts_dead_candidate (u : float) (cand cur : ndarray) :
  logtarget cand = neg_infinity \/ logtarget cand = nan ->
  accepts u cand cur = false.
Proof.
  unfold MH.accepts. intros [-> | ->].
  - destruct (logtarget cur) as [s|[]| |s m e]; simpl;
      first [apply flt_neg_infinity_r | apply flt_nan_r].
  - simpl. apply flt_nan_r.
Qed.

Lemma accepts_from_infinite (u : float) (cand cur : ndarray) :
  logtarget cur = S754_infinity false \/ logtarget cur = nan ->
  accepts u cand cur = false.
Proof.
  unfold MH.accepts. intros [-> | ->].
  - destruct (logtarget cand) as [s|[]| |s m e]; simpl;
      first [apply flt_neg_infinity_r | apply flt_nan_r].
  - destruct (logtarget cand) as [s|s| |s m e]; simpl; apply flt_nan_r.
Qed.

Lemma flt_below_zero_below_infinity (a : float) :
  flt a zero = true -> flt a (S754_infinity false) = true.
Proof. destruct a as [s|[]| |[] m e]; simpl; try discriminate; reflexivity. Qed.

(** X2. A candidate whose log-target is minus infinity or NaN is never
    accepted, whatever the log-target of the current state, the variate
    and the logarithm: the iteration keeps state, counter and buffer and
    records the state it had. *)
Theorem dead_candidate_rejected (st : locals) (w : world RandomState) :
  logtarget (fst (sample (candidate_generating_density (x st)) (rng w))) = neg_infinity \/
  logtarget (fst (sample (candidate_generating_density (x st)) (rng w))) = nan ->
  exists w',
    accept_reject st w = (Ok st, w') /\
    stdout w' = stdout w /\
    forall i, iteration i st w = record i st w'.
Proof.
  intros Hdead.
  destruct (sample (candidate_generating_density (x st)) (rng w)) as [cand s1] eqn:Hc.
  destruct (uniform s1) as [u s2] eqn:Hu. simpl in Hdead.
  pose proof (accept_reject_eq uniform log logtarget _ st w cand s1 u s2 Hc Hu) as Har.
  rewrite (accepts_dead_candidate u cand (x st) Hdead) in Har.
  exists {| rng := s2; stdout := stdout w |}. split; [exact Har|]. split; [reflexivity|].
  intros i. unfold MH.iteration, bind. rewrite Har. reflexivity.
Qed.

(** X4. A candidate whose log-target is plus infinity is accepted from
    every state whose log-target is finite or minus infinity, as soon as
    the logarithm of the variate is below zero: the state becomes the
    candidate and the counter moves up by one. *)
Theorem infinite_candidate_accepted (st : locals) (w : world RandomState) :
  source_in_unit uniform ->
  log_negative_on_unit log ->
  logtarget (fst (sample (candidate_generating_density (x st)) (rng w))) =
    S754_infinity false ->
  is_finite (logtarget (x st)) = true \/ logtarget (x st) = neg_infinity ->
  exists w',
    accept_reject st w =
    (Ok {| x := fst (sample (candidate_generating_density (x st)) (rng w));
           chain := chain st;
           accepted := accepted st + 1 |}, w') /\
    stdout w' = stdout w.
Proof.
  intros Hsrc Hlog Hcand Hcur.
  destruct (sample (candidate_generating_density (x st)) (rng w)) as [cand s1] eqn:Hc.
  destruct (uniform s1) as [u s2] eqn:Hu. simpl in *.
  pose proof (accept_reject_eq uniform log logtarget _ st w cand s1 u s2 Hc Hu) as Har.
  assert (Hacc : accepts u cand (x st) = true).
  { unfold MH.accepts. rewrite Hcand.
    assert (Hr : fsub (S754_infinity false) (logtarget (x st)) = S754_infinity false).
    { destruct Hcur as [Hf| ->]; [|reflexivity].
      destruct (logtarget (x st)) as [s|s| |s m e]; simpl in Hf; try discriminate;
        reflexivity. }
    rewrite Hr. apply flt_below_zero_below_infinity, Hlog.
    specialize (Hsrc s1). rewrite Hu in Hsrc. exact Hsrc. }
  rewrite Hacc in Har.
  exists {| rng := s2; stdout := stdout w |}. split; [exact Har|reflexivity].
Qed.

(** While the test fails for every variate and candidate, the loop
    writes the same entry column after column. *)
Lemma loop_stuck (a b : float) :
  (forall u cand, accepts u cand [a; b] = false) ->
  forall (k i m : nat) (acc : Z) (w : world RandomState),
  exists w',
    for_range_from i k iteration
      {| x := [a; b];
         chain := {| row0 := replicate i a ++ replicate (k + m) zero;
                     row1 := replicate i b ++ replicate (k + m) zero |};
         accepted := acc |} w =
    (Ok {| x := [a; b];
           chain := {| row0 := replicate (i + k) a ++ replicate m zero;
                       row1 := replicate (i + k) b ++ replicate m zero |};
           accepted := acc |}, w') /\
    stdout w' = stdout w.
Proof.
  intros Hno. induction k as [|k IH]; intros i m acc w.
  - exists w. simpl. unfold ret. rewrite Nat.add_0_r. auto.
  - simpl for_range_from. unfold bind.
    destruct (sample (candidate_generating_density [a; b]) (rng w)) as [cand s1] eqn:Hc.
    destruct (uniform s1) as [u s2] eqn:Hu.
    unfold MH.iteration at 1, bind.
    match goal with
    | |- context [accept_reject ?s w] =>
        rewrite (accept_reject_eq uniform log logtarget candidate_generating_density
                   s w cand s1 u s2 Hc Hu)
    end.
    simpl x. rewrite Hno.
    rewrite (record_ok i _ _ a b) by
      (simpl; rewrite ?length_app; simpl; rewrite ?length_replicate; auto; lia).
    simpl. rewrite !insert_next_replicate.
    destruct (IH (S i) m acc {| rng := s2; stdout := stdout w |}) as (w' & Hrun & Ho).
    exists w'. rewrite Hrun. replace (i + S k)%nat with (S i + k)%nat by lia.
    split; [reflexivity|exact Ho].
Qed.

(** X3. A start at which the log-target is plus infinity or NaN is
    never left, whatever the proposal: the ratio is minus infinity or NaN
    at every test, the chain is n copies of the start and the reported
    count is 0. *)
Theorem infinite_start_never_moves (a b : float) (n : Z) (w : world RandomState) :
  0 < n ->
  logtarget [a; b] = S754_infinity false \/ logtarget [a; b] = nan ->
  exists w',
    metropolis_hastings [a; b] n w =
    (Ok {| row0 := replicate (Z.to_nat n) a; row1 := replicate (Z.to_nat n) b |}, w') /\
    stdout w' = stdout w ++ [Accepted_pct 0 n].
Proof.
  intros Hn Hinf.
  rewrite (mh_unfold uniform log logtarget _ [a; b] n w Hn).
  destruct (loop_stuck a b (fun u cand => accepts_from_infinite u cand [a; b] Hinf)
              (Z.to_nat n) 0 0 0 w) as (w1 & Hrun & Ho).
  unfold MH.after, initially, zeros2.
  simpl in Hrun. rewrite Nat.add_0_r, !app_nil_r in Hrun. rewrite Hrun.
  eexists. split; [reflexivity|]. simpl. rewrite Ho. reflexivity.
Qed.

End Edges.

(** ** Runs of different lengths, and the variates a run draws *)

Section Extend.

Import MH Cells.

Context {RandomState : Type}.
Variable uniform : RandomState -> float * RandomState.
Variable log : float -> float.
Variable logtarget : ndarray -> float.
Variable candidate_generating_density : ndarray -> Rand ndarray.

#[local] Abbreviation sample := (sample uniform).
#[local] Abbreviation accepts := (accepts log logtarget).
#[local] Abbreviation accept_reject :=
  (accept_reject uniform log logtarget candidate_generating_density).
#[local] Abbreviation iteration :=
  (iteration uniform log logtarget candidate_generating_density).
#[local] Abbreviation keeps_two := (keeps_two uniform candidate_generating_density).
#[local] Abbreviation after :=
  (after uniform log logtarget candidate_generating_density).
#[local] Abbreviation state_after :=
  (state_after uniform log logtarget candidate_generating_density).
#[local] Abbreviation metropolis_hastings :=
  (metropolis_hastings uniform log logtarget candidate_generating_density).

(** The loop reads its buffer nowhere: from the same state, counter and
    world, two loops on buffers of different widths go through the same
    states and fill their columns alike. *)
Lemma loop_buffers (N1 N2 : nat) :
  keeps_two ->
  forall (k i : nat) (st1 st2 : locals) (w : world RandomState),
    (i + k <= N1)%nat -> (i + k <= N2)%nat ->
    x st1 = x st2 -> numel (x st1) = 2%nat -> accepted st1 = accepted st2 ->
    length (row0 (chain st1)) = N1 -> length (row1 (chain st1)) = N1 ->
    length (row0 (chain st2)) = N2 -> length (row1 (chain st2)) = N2 ->
    (forall j, (j < i)%nat -> column (chain st1) j = column (chain st2) j) ->
    exists st1' st2' w',
      for_range_from i k iteration st1 w = (Ok st1', w') /\
      for_range_from i k iteration st2 w = (Ok st2', w') /\
      accepted st1' = accepted st2' /\
      forall j, (j < i + k)%nat -> column (chain st1') j = column (chain st2') j.
Proof.
  intros Hk. induction k as [|k IH]; intros i st1 st2 w H1 H2 Hx Hn Ha L10 L11 L20 L21 Hcol.
  - exists st1, st2, w. simpl. unfold ret. repeat split; auto.
    intros j Hj. apply Hcol. lia.
  - destruct (iteration_ok uniform log logtarget _ i st1 w Hk Hn ltac:(lia))
      as (s1 & w1 & a1 & b1 & Har1 & Hab1 & _ & _ & Hit1).
    destruct (iteration_ok uniform log logtarget _ i st2 w Hk ltac:(congruence) ltac:(lia))
      as (s2 & w2 & a2 & b2 & Har2 & Hab2 & _ & _ & Hit2).
    destruct (sample (candidate_generating_density (x st1)) (rng w)) as [cand r1] eqn:Hc.
    destruct (uniform r1) as [u r2] eqn:Hu.
    rewrite (accept_reject_eq uniform log logtarget _ st1 w cand r1 u r2 Hc Hu) in Har1.
    rewrite Hx in Hc.
    rewrite (accept_reject_eq uniform log logtarget _ st2 w cand r1 u r2 Hc Hu) in Har2.
    injection Har1 as E1 <-. injection Har2 as E2 <-.
    assert (Hsame : x s1 = x s2 /\ accepted s1 = accepted s2).
    { subst s1 s2. rewrite Hx. destruct (accepts u cand (x st2)); simpl; split; congruence. }
    destruct Hsame as [Hxs Has].
    assert (a1 = a2 /\ b1 = b2) as [<- <-] by (split; congruence).
    simpl for_range_from. unfold bind. rewrite Hit1, Hit2.
    match goal with
    | |- context [for_range_from (S i) k iteration ?s _ = (Ok _, _) /\
                  for_range_from (S i) k iteration ?t _ = _ /\ _] =>
        destruct (IH (S i) s t {| rng := r2; stdout := stdout w |})
          as (st1' & st2' & w' & R1 & R2 & Ra & Rc)
    end; simpl; rewrite ?length_insert; auto; try lia.
    + intros j Hj. destruct (decide (j = i)) as [->|Hne].
      * rewrite !column_set by lia. reflexivity.
      * destruct (chain st1) as [p0 p1], (chain st2) as [q0 q1].
        rewrite !column_set_other by lia. apply Hcol. lia.
    + exists st1', st2', w'. repeat split; auto.
      intros j Hj. apply Rc. lia.
Qed.

(** X5. A longer run extends a shorter one: from the same start, source
    and functions, on two-element states, the chain of a run of k
    iterations is the first k entries of the chain of a run of n >= k
    iterations. *)
Theorem longer_run_extends (chain_start : ndarray) (k n : Z) (w : world RandomState) :
  0 < k <= n ->
  numel chain_start = 2%nat ->
  keeps_two ->
  exists ck cn wk wn,
    metropolis_hastings chain_start k w = (Ok ck, wk) /\
    metropolis_hastings chain_start n w = (Ok cn, wn) /\
    length (row0 ck) = Z.to_nat k /\
    length (row0 cn) = Z.to_nat n /\
    forall j, (j < Z.to_nat k)%nat -> column ck j = column cn j.
Proof.
  intros Hkn Hx Hk.
  rewrite (mh_unfold uniform log logtarget _ chain_start k w ltac:(lia)).
  rewrite (mh_unfold uniform log logtarget _ chain_start n w ltac:(lia)).
  destruct (loop_buffers (Z.to_nat k) (Z.to_nat n) Hk (Z.to_nat k) 0
              (initially chain_start (zeros2 (Z.to_nat k)))
              (initially chain_start (zeros2 (Z.to_nat n))) w)
    as (sk & sn & w' & Rk & Rn & _ & Hcol);
    try (simpl; rewrite ?length_replicate; auto; lia).
  destruct (after_ok uniform log logtarget _ chain_start k (Z.to_nat k) w Hk Hx ltac:(lia))
    as (sk' & wk' & Hrk & _ & Lk & _).
  destruct (after_ok uniform log logtarget _ chain_start n (Z.to_nat n) w Hk Hx ltac:(lia))
    as (sn' & wn' & Hrn & _ & Ln & _).
  destruct (after_ok uniform log logtarget _ chain_start n (Z.to_nat k) w Hk Hx ltac:(lia))
    as (sm & wm & Hrm & Hxm & Lm0 & Lm1 & _).
  unfold MH.after in Hrk, Hrm. rewrite Rk in Hrk. rewrite Rn in Hrm.
  injection Hrk as <- <-. injection Hrm as <- <-.
  fold (after chain_start k (Z.to_nat k) w) in Rk. rewrite Rk.
  rewrite Hrn. eexists _, _, _, _. split; [reflexivity|]. split; [reflexivity|].
  split; [exact Lk|]. split; [exact Ln|].
  intros j Hj. rewrite Hcol by lia.
  pose proof (for_range_from_app iteration (Z.to_nat k) (Z.to_nat n - Z.to_nat k) 0
                (initially chain_start (zeros2 (Z.to_nat n))) w) as Hsplit.
  replace (Z.to_nat k + (Z.to_nat n - Z.to_nat k))%nat with (Z.to_nat n) in Hsplit by lia.
  unfold MH.after in Hrn. rewrite Hsplit, Rn in Hrn. simpl in Hrn.
  destruct (loop_ok uniform log logtarget _ (Z.to_nat n) Hk
              (Z.to_nat n - Z.to_nat k) (Z.to_nat k) sn w')
    as (s' & w'' & Hrun & _ & _ & _ & _ & _ & Hpre); auto; try lia.
  rewrite Hrun in Hrn. injection Hrn as <- <-. symmetry. apply Hpre. exact Hj.
Qed.

Lemma advance_add (a b : nat) :
  forall s : RandomState, advance uniform (a + b) s = advance uniform b (advance uniform a s).
Proof. induction a as [|a IH]; intros s; simpl; [reflexivity|apply IH]. Qed.

Lemma sample_draws {A} (p : Rand A) :
  forall d s, draws_exactly d p -> snd (sample p s) = advance uniform d s.
Proof.
  induction p as [a|k IH]; intros [|d] s H; simpl in *; try contradiction; [reflexivity|].
  destruct (uniform s) as [v s']. simpl. apply IH, H.
Qed.

(** On two-element states, with a proposal of [d] draws a call, the
    source is [k * (d + 1)] draws ahead after [k] iterations. *)
Lemma after_draws (d : nat) (chain_start : ndarray) (n : Z) (w : world RandomState) :
  keeps_two ->
  numel chain_start = 2%nat ->
  (forall cur, numel cur = 2%nat -> draws_exactly d (candidate_generating_density cur)) ->
  forall k, (k <= Z.to_nat n)%nat ->
    rng (snd (after chain_start n k w)) = advance uniform (k * (d + 1)) (rng w).
Proof.
  intros Hk Hx Hd. induction k as [|k IH]; intros Hle; [reflexivity|].
  specialize (IH ltac:(lia)).
  destruct (after_ok uniform log logtarget _ chain_start n k w Hk Hx ltac:(lia))
    as (st & w1 & Hrun & Hx1 & H0 & H1 & _ & _).
  rewrite (after_S uniform log logtarget _ chain_start n k w), Hrun.
  rewrite Hrun in IH. simpl in IH.
  destruct (iteration_ok uniform log logtarget _ k st w1 Hk Hx1 ltac:(lia))
    as (st1 & w2 & a & b & Har & _ & _ & _ & Hit).
  rewrite Hit. simpl.
  destruct (sample (candidate_generating_density (x st)) (rng w1)) as [cand s1] eqn:Hc.
  destruct (uniform s1) as [u s2] eqn:Hu.
  rewrite (accept_reject_eq uniform log logtarget _ st w1 cand s1 u s2 Hc Hu) in Har.
  injection Har as _ <-. simpl.
  pose proof (sample_draws (candidate_generating_density (x st)) d (rng w1) (Hd _ Hx1)) as Hs.
  rewrite Hc in Hs. simpl in Hs.
  replace (d + 1 + k * (d + 1))%nat with (k * (d + 1) + (d + 1))%nat by lia.
  rewrite advance_add, <- IH, advance_add, <- Hs. simpl. rewrite Hu. reflexivity.
Qed.

(** X6. On two-element states, with a proposal that draws exactly d
    variates a call, a run of n > 0 iterations leaves the random source
    exactly n * (d + 1) draws ahead: d for each candidate and one for
    each test. *)
Theorem run_draws (d : nat) (chain_start : ndarray) (n : Z) (w : world RandomState) :
  0 < n ->
  numel chain_start = 2%nat ->
  keeps_two ->
  (forall cur, numel cur = 2%nat -> draws_exactly d (candidate_generating_density cur)) ->
  exists c w',
    metropolis_hastings chain_start n w = (Ok c, w') /\
    rng w' = advance uniform (Z.to_nat n * (d + 1)) (rng w).
Proof.
  intros Hn Hx Hk Hd.
  pose proof (after_draws d chain_start n w Hk Hx Hd (Z.to_nat n) ltac:(lia)) as Hr.
  destruct (after_ok uniform log logtarget _ chain_start n (Z.to_nat n) w Hk Hx ltac:(lia))
    as (st & w1 & Hrun & _).
  rewrite (mh_unfold uniform log logtarget _ chain_start n w Hn).
  rewrite Hrun in Hr |- *. simpl in Hr. eexists _, _. split; [reflexivity|exact Hr].
Qed.

Lemma proposal_density_keeps_two :
  is_proposal_density candidate_generating_density -> keeps_two.
Proof.
  intros Hp cur s Hcur. destruct (numel_two _ Hcur) as (a & b & ->).
  rewrite Hp. simpl. destruct (uniform s) as [d0 s0]. destruct (uniform s0) as [d1 s1].
  reflexivity.
Qed.

Lemma proposal_density_draws :
  is_proposal_density candidate_generating_density ->
  forall cur, numel cur = 2%nat -> draws_exactly 2 (candidate_generating_density cur).
Proof.
  intros Hp cur Hcur. destruct (numel_two _ Hcur) as (a & b & ->).
  rewrite Hp. simpl. auto.
Qed.

(** X7. With the proposal of the notebook, the sampler's assumptions
    hold on every state of shape (2, 1): each candidate has two elements
    again and costs two variates. Hence a run of n > 0 iterations from
    such a state ends well with a chain of n columns and leaves the
    source 3 n draws ahead. *)
Theorem notebook_proposal_run (chain_start : ndarray) (n : Z) (w : world RandomState) :
  is_proposal_density candidate_generating_density ->
  0 < n ->
  numel chain_start = 2%nat ->
  keeps_two /\
  exists c w',
    metropolis_hastings chain_start n w = (Ok c, w') /\
    length (row0 c) = Z.to_nat n /\
    length (row1 c) = Z.to_nat n /\
    rng w' = advance uniform (3 * Z.to_nat n) (rng w).
Proof.
  intros Hp Hn Hx.
  pose proof (proposal_density_keeps_two Hp) as Hk. split; [exact Hk|].
  pose proof (after_draws 2 chain_start n w Hk Hx (proposal_density_draws Hp)
                (Z.to_nat n) ltac:(lia)) as Hr.
  destruct (after_ok uniform log logtarget _ chain_start n (Z.to_nat n) w Hk Hx ltac:(lia))
    as (st & w1 & Hrun & _ & L0 & L1 & _).
  rewrite (mh_unfold uniform log logtarget _ chain_start n w Hn).
  rewrite Hrun in Hr |- *. simpl in Hr.
  eexists _, _. split; [reflexivity|]. split; [exact L0|]. split; [exact L1|].
  simpl. rewrite Hr. f_equal. lia.
Qed.

End Extend.

(** ** Burn-in and thinning *)

From Stdlib Require Import ZifyNat.

Lemma stride_from_lookup {A} (k : nat) (l : list A) :
  (1 <= k)%nat ->
  forall skip j, stride_from k skip l !! j = l !! (skip + j * k)%nat.
Proof.
  intros Hk. induction l as [|a l IH]; intros skip j; simpl; [reflexivity|].
  destruct skip as [|skip].
  - destruct j as [|j]; simpl; [reflexivity|].
    rewrite IH. replace (k + j * k)%nat with (S (k - 1 + j * k)) by lia. reflexivity.
  - rewrite IH. reflexivity.
Qed.

Lemma stride_ten_length {A} (l : list A) :
  forall skip, length (stride_from 10 skip l) = ((length l - skip + 9) / 10)%nat.
Proof.
  induction l as [|a l IH]; intros skip; simpl length.
  - reflexivity.
  - destruct skip as [|skip]; simpl stride_from; simpl length; rewrite IH; lia.
Qed.

Lemma gaps_shape (c : matrix2) :
  Cells.gaps c =
  Ok {| row0 := stride_from 10 0 (drop (Z.to_nat 10000) (row0 c));
        row1 := stride_from 10 0 (drop (Z.to_nat 10000) (row1 c)) |}.
Proof. reflexivity. Qed.

Lemma gaps_row {A} (l : list A) :
  length (stride_from 10 0 (drop (Z.to_nat 10000) l)) =
    ((length l - Z.to_nat 10000 + 9) / 10)%nat /\
  forall j, stride_from 10 0 (drop (Z.to_nat 10000) l) !! j =
            l !! (Z.to_nat 10000 + 10 * j)%nat.
Proof.
  split.
  - rewrite stride_ten_length, length_drop. f_equal. lia.
  - intros j. rewrite stride_from_lookup by lia. rewrite lookup_drop.
    f_equal. lia.
Qed.

(** X8. For an array of any width, [gaps] is defined (the step is not
    0); column j of [gaps] is column 10000 + 10 j of the array, and a row
    of length m leaves a row of length ceil((m - 10000) / 10), none when
    m <= 10000. *)
Theorem gaps_columns (c : matrix2) :
  exists g,
    Cells.gaps c = Ok g /\
    length (row0 g) = ((length (row0 c) - Z.to_nat 10000 + 9) / 10)%nat /\
    length (row1 g) = ((length (row1 c) - Z.to_nat 10000 + 9) / 10)%nat /\
    forall j, column g j = column c (Z.to_nat 10000 + 10 * j)%nat.
Proof.
  eexists. split; [apply gaps_shape|]. cbn [row0 row1].
  destruct (gaps_row (row0 c)) as [L0 K0], (gaps_row (row1 c)) as [L1 K1].
  split; [exact L0|]. split; [exact L1|].
  intros j. unfold column. cbn [row0 row1]. rewrite K0, K1. reflexivity.
Qed.

Section Thinning.

Import MH.

Context {RandomState : Type}.
Variable uniform : RandomState -> float * RandomState.
Variable log : float -> float.
Variable logtarget : ndarray -> float.
Variable candidate_generating_density : ndarray -> Rand ndarray.

(** X9. The samples kept by the notebook: for a run of n > 0
    iterations on two-element states, [gaps] has ceil((n - 10000) / 10)
    columns, and its column j is the state the sampler held once
    iteration 10000 + 10 j was over (the iterations count from 0). *)
Theorem gaps_of_run (chain_start : ndarray) (n : Z) (w : world RandomState) :
  0 < n ->
  numel chain_start = 2%nat ->
  keeps_two uniform candidate_generating_density ->
  exists c w' g,
    metropolis_hastings uniform log logtarget candidate_generating_density
      chain_start n w = (Ok c, w') /\
    Cells.gaps c = Ok g /\
    length (row0 g) = ((Z.to_nat n - Z.to_nat 10000 + 9) / 10)%nat /\
    length (row1 g) = ((Z.to_nat n - Z.to_nat 10000 + 9) / 10)%nat /\
    forall j, (Z.to_nat 10000 + 10 * j < Z.to_nat n)%nat ->
      is_Some (column g j) /\
      column g j =
      state_after uniform log logtarget candidate_generating_density
        chain_start n (S (Z.to_nat 10000 + 10 * j)) w.
Proof.
  intros Hn Hx Hk.
  destruct (after_ok uniform log logtarget _ chain_start n (Z.to_nat n) w Hk Hx ltac:(lia))
    as (st & w1 & Hrun & _ & L0 & L1 & _).
  rewrite (mh_unfold uniform log logtarget _ chain_start n w Hn), Hrun.
  destruct (gaps_row (row0 (chain st))) as [G0 K0].
  destruct (gaps_row (row1 (chain st))) as [G1 K1].
  eexists _, _, _. split; [reflexivity|]. split; [apply gaps_shape|]. cbn [row0 row1].
  rewrite L0 in G0. rewrite L1 in G1. split; [exact G0|]. split; [exact G1|].
  intros j Hj.
  assert (Hcol : column {| row0 := stride_from 10 0 (drop (Z.to_nat 10000) (row0 (chain st)));
                           row1 := stride_from 10 0 (drop (Z.to_nat 10000) (row1 (chain st))) |}
                   j = column (chain st) (Z.to_nat 10000 + 10 * j)%nat).
  { unfold column. cbn [row0 row1]. rewrite K0, K1. reflexivity. }
  rewrite Hcol.
  destruct (column_after uniform log logtarget _ chain_start n
              (Z.to_nat 10000 + 10 * j) (Z.to_nat n) w st w1 Hk Hx Hj ltac:(lia) Hrun)
    as (sj & wj & a & b & HS & Hab & Hc).
  unfold state_after. rewrite HS, Hc, Hab. split; [eauto|reflexivity].
Qed.

End Thinning.

(** * Further facts on the pi cells *)

Section PiDraws.

Import Pi PiCells.

Context {RandomState : Type}.
Variable uniform : RandomState -> float * RandomState.

#[local] Abbreviation uniform_draws := (uniform_draws uniform).
#[local] Abbreviation points_vectorized := (points_vectorized uniform).
#[local] Abbreviation points_for_loop := (points_for_loop uniform).
#[local] Abbreviation loop_body := (loop_body uniform).
#[local] Abbreviation advance := (advance uniform).

Lemma uniform_draws_state (k : nat) :
  forall s, snd (uniform_draws k s) = advance k s.
Proof.
  induction k as [|k IH]; intros s; simpl; [reflexivity|].
  destruct (uniform s) as [d s1]. specialize (IH s1).
  destruct (uniform_draws k s1) as [ds s2]. exact IH.
Qed.

Lemma uniform_draws_app (a b : nat) :
  forall s,
    uniform_draws (a + b) s =
    (fst (uniform_draws a s) ++ fst (uniform_draws b (advance a s)),
     advance b (advance a s)).
Proof.
  induction a as [|a IH]; intros s; simpl.
  - rewrite <- uniform_draws_state. destruct (uniform_draws b s); reflexivity.
  - destruct (uniform s) as [d s1]. simpl. rewrite IH.
    destruct (uniform_draws a s1) as [ds s2]. reflexivity.
Qed.

Lemma advance_twice (k : nat) :
  forall s, advance (2 * k) s = advance k (advance k s).
Proof.
  intros s. replace (2 * k)%nat with (k + k)%nat by lia.
  pose proof (uniform_draws_app k k s) as H. apply (f_equal snd) in H.
  rewrite uniform_draws_state in H. exact H.
Qed.

Lemma advance_pairs (k : nat) :
  forall s, advance (2 * S k) s = advance (2 * k) (snd (uniform (snd (uniform s)))).
Proof. intros s. replace (2 * S k)%nat with (S (S (2 * k))) by lia. reflexivity. Qed.

(** The loop counts the points it samples and leaves the source two
    draws a round ahead. *)
Lemma loop_counts_state (k : nat) :
  forall (i : nat) (count : Z) (s : RandomState),
    for_range_from i k loop_body count s =
    (Ok (count + inside_count (points_for_loop k s)), advance (2 * k) s).
Proof.
  induction k as [|k IH]; intros i count s.
  - simpl. unfold ret, inside_count. simpl. rewrite Z.add_0_r. reflexivity.
  - rewrite advance_pairs. simpl for_range_from.
    unfold bind, Pi.loop_body at 1, bind, draw, ret. simpl Pi.points_for_loop.
    destruct (uniform s) as [u s1]. simpl snd. destruct (uniform s1) as [v s2]. simpl snd.
    rewrite IH, inside_count_cons. unfold in_quarter_circle. simpl.
    destruct (inside u v); simpl Z.b2z; do 2 f_equal; lia.
Qed.

(** X10. From the same state of the source, the vectorized cell and the
    for-loop cell leave the source in the same state, 2 n draws ahead
    (no draw at all for n <= 0), whether they end well or not. *)
Theorem pi_cells_same_draws (n : Z) (s : RandomState) :
  snd (vectorized uniform n s) = advance (2 * Z.to_nat n) s /\
  snd (for_loop uniform n s) = advance (2 * Z.to_nat n) s.
Proof.
  split.
  - unfold vectorized, bind, uniform_size, ret.
    destruct (n <? 0) eqn:E.
    + apply Z.ltb_lt in E. replace (Z.to_nat n) with 0%nat by lia. reflexivity.
    + rewrite advance_twice.
      pose proof (uniform_draws_state (Z.to_nat n) s) as H1.
      destruct (uniform_draws (Z.to_nat n) s) as [x s1]. simpl in H1.
      pose proof (uniform_draws_state (Z.to_nat n) s1) as H2.
      destruct (uniform_draws (Z.to_nat n) s1) as [y s2]. simpl in H2 |- *.
      congruence.
  - unfold for_loop, bind, lift, py_truediv, ret. rewrite loop_counts_state.
    destruct (n =? 0); reflexivity.
Qed.

Lemma pair_up_draws (k : nat) :
  forall s, points_for_loop k s = pair_up (fst (uniform_draws (k + k) s)).
Proof.
  induction k as [|k IH]; intros s; [reflexivity|].
  replace (S k + S k)%nat with (S (S (k + k))) by lia. simpl.
  destruct (uniform s) as [u s1]. destruct (uniform s1) as [v s2].
  rewrite IH. destruct (uniform_draws (k + k) s2) as [ds s3]. reflexivity.
Qed.

(** X11. The two cells pair the same 2 n draws differently: the
    vectorized cell makes point i of draw i and draw n + i, the loop
    makes it of draw 2 i and draw 2 i + 1. *)
Theorem pi_cells_pairing (k : nat) (s : RandomState) :
  points_vectorized k s =
    zip (take k (fst (uniform_draws (k + k) s))) (drop k (fst (uniform_draws (k + k) s))) /\
  points_for_loop k s = pair_up (fst (uniform_draws (k + k) s)).
Proof.
  split; [|apply pair_up_draws].
  rewrite uniform_draws_app. simpl fst. unfold Pi.points_vectorized.
  pose proof (uniform_draws_length uniform k s) as Hlen.
  pose proof (uniform_draws_state k s) as Hst.
  destruct (uniform_draws k s) as [x s1]. simpl in Hlen, Hst. subst s1.
  destruct (uniform_draws k (advance k s)) as [y s2]. simpl fst.
  rewrite take_app_length' by (symmetry; exact Hlen).
  rewrite drop_app_length' by (symmetry; exact Hlen).
  reflexivity.
Qed.

Lemma select_mask (x : list float) :
  forall y, length x = length y ->
    zip (select x (mask x y)) (select y (mask x y)) =
    List.filter in_quarter_circle (zip x y).
Proof.
  induction x as [|u x IH]; intros [|v y] Hlen; simpl in Hlen; try discriminate;
    [reflexivity|].
  unfold mask in *. simpl. unfold in_quarter_circle at 1. simpl.
  destruct (inside u v); simpl; rewrite IH by lia; reflexivity.
Qed.

Lemma mask_length (x : list float) :
  forall y, length x = length y -> length (mask x y) = length x.
Proof.
  induction x as [|u x IH]; intros [|v y] Hlen; simpl in Hlen; try discriminate;
    [reflexivity|].
  unfold mask in *. simpl. rewrite IH by lia. reflexivity.
Qed.

Lemma filter_length_le {A} (f : A -> bool) (l : list A) :
  (length (List.filter f l) <= length l)%nat.
Proof. induction l as [|a l IH]; simpl; [lia|]. destruct (f a); simpl; lia. Qed.

(** X12. For n >= 0 the vectorized cell plots in red exactly the
    sampled points with x^2 + y^2 < 1, in the order they were sampled
    (the masks never raise an IndexError), and its estimate is the number
    of plotted points, at most n, divided by n, times 4. *)
Theorem scatter_is_the_counted_points (n : Z) (s : RandomState) :
  0 <= n ->
  exists pts,
    pts = List.filter in_quarter_circle (points_vectorized (Z.to_nat n) s) /\
    vectorized_cell uniform n s =
    (Ok (fmul (fdiv (of_int (Z.of_nat (length pts))) (of_int n)) four, pts),
     snd (vectorized uniform n s)) /\
    fst (vectorized uniform n s) =
    Ok (fmul (fdiv (of_int (Z.of_nat (length pts))) (of_int n)) four) /\
    0 <= Z.of_nat (length pts) <= n.
Proof.
  intros Hn. eexists. split; [reflexivity|].
  unfold vectorized_cell, vectorized, bind, uniform_size, ret, lift, Pi.points_vectorized,
    true_divide.
  destruct (n <? 0) eqn:E; [apply Z.ltb_lt in E; lia|].
  pose proof (uniform_draws_length uniform (Z.to_nat n) s) as Lx.
  destruct (uniform_draws (Z.to_nat n) s) as [x s1]. simpl in Lx.
  pose proof (uniform_draws_length uniform (Z.to_nat n) s1) as Ly.
  destruct (uniform_draws (Z.to_nat n) s1) as [y s2]. simpl in Ly.
  assert (Hxy : length x = length y) by lia.
  unfold scatter_points, bool_index.
  rewrite (mask_length x y Hxy).
  replace (length y =? length x)%nat with true by (symmetry; apply Nat.eqb_eq; lia).
  rewrite Nat.eqb_refl, (select_mask x y Hxy), np_sum_mask.
  split; [reflexivity|]. split; [reflexivity|].
  pose proof (filter_length_le in_quarter_circle (zip x y)) as Hle.
  rewrite length_zip_with in Hle. lia.
Qed.

(** X14. For n <= 0 neither cell draws a variate, and exactly one of
    them raises: for n < 0 the vectorized cell raises ValueError while
    the loop returns a value; for n = 0 the vectorized cell returns NaN
    while the loop raises ZeroDivisionError. *)
Theorem pi_cells_nonpositive (n : Z) (s : RandomState) :
  n <= 0 ->
  snd (vectorized uniform n s) = s /\
  snd (for_loop uniform n s) = s /\
  (n < 0 /\ fst (vectorized uniform n s) = Raise ValueError /\
     (exists v, fst (for_loop uniform n s) = Ok v)
   \/
   n = 0 /\ fst (vectorized uniform n s) = Ok nan /\
     fst (for_loop uniform n s) = Raise ZeroDivisionError).
Proof.
  intros Hn. destruct (Z.eq_dec n 0) as [->|Hne].
  - split; [reflexivity|]. split; [reflexivity|]. right. repeat split.
  - assert (Hlt : n < 0) by lia.
    unfold vectorized, for_loop, bind, uniform_size, lift, py_truediv, ret.
    replace (Z.to_nat n) with 0%nat by lia. simpl for_range_from. unfold ret.
    apply Z.ltb_lt in Hlt. rewrite Hlt.
    destruct (n =? 0) eqn:E; [apply Z.eqb_eq in E; lia|].
    split; [reflexivity|]. split; [reflexivity|]. left.
    apply Z.ltb_lt in Hlt. split; [exact Hlt|]. split; [reflexivity|]. eauto.
Qed.

(** ** The timed statements *)

Lemma vectorized_stmt_eq (n : Z) (sx sy : RandomState) :
  0 <= n ->
  vectorized_stmt uniform n (sx, sy) =
  (Ok (mask (fst (uniform_draws (Z.to_nat n) sx)) (fst (uniform_draws (Z.to_nat n) sy))),
   (advance (Z.to_nat n) sx, advance (Z.to_nat n) sy)).
Proof.
  intros Hn. unfold vectorized_stmt, bind, uniform_size_x, uniform_size_y, uniform_size, ret.
  simpl fst. simpl snd.
  destruct (n <? 0) eqn:E; [apply Z.ltb_lt in E; lia|].
  rewrite <- !uniform_draws_state.
  destruct (uniform_draws (Z.to_nat n) sx) as [x sx'].
  simpl. destruct (uniform_draws (Z.to_nat n) sy) as [y sy']. reflexivity.
Qed.

Lemma for_stmt_loop (k : nat) :
  forall (i : nat) (count : Z) (sx sy : RandomState),
    for_range_from i k (for_stmt_body uniform) count (sx, sy) =
    (Ok (count + inside_count (zip (fst (uniform_draws k sx)) (fst (uniform_draws k sy)))),
     (advance k sx, advance k sy)).
Proof.
  induction k as [|k IH]; intros i count sx sy.
  - simpl. unfold ret, inside_count. simpl. rewrite Z.add_0_r. reflexivity.
  - simpl for_range_from. unfold bind, for_stmt_body at 1, bind, draw_x, draw_y, ret.
    cbn [fst snd]. simpl Pi.uniform_draws.
    change (advance (S k) sx) with (advance k (snd (uniform sx))).
    change (advance (S k) sy) with (advance k (snd (uniform sy))).
    destruct (uniform sx) as [u sx1]. cbn [fst snd].
    destruct (uniform sy) as [v sy1]. cbn [fst snd].
    rewrite IH.
    destruct (uniform_draws k sx1) as [xs sx2], (uniform_draws k sy1) as [ys sy2].
    cbn [fst snd zip uncurry zip_with]. rewrite inside_count_cons.
    unfold in_quarter_circle. cbn [fst snd].
    destruct (inside u v); simpl Z.b2z; do 2 f_equal; lia.
Qed.

Lemma for_stmt_eq (n : Z) (sx sy : RandomState) :
  for_stmt uniform n (sx, sy) =
  (Ok (0 + inside_count (zip (fst (uniform_draws (Z.to_nat n) sx))
                             (fst (uniform_draws (Z.to_nat n) sy)))),
   (advance (Z.to_nat n) sx, advance (Z.to_nat n) sy)).
Proof. unfold for_stmt. apply for_stmt_loop. Qed.

Lemma executed_agree (n : Z) (r : nat) :
  0 <= n ->
  forall (sx sy : RandomState) (lastm : option (list bool)) (lastc : option Z),
    option_map np_sum lastm = lastc ->
    exists m c,
      executed r (vectorized_stmt uniform n) lastm (sx, sy) =
      (Ok m, (advance (r * Z.to_nat n) sx, advance (r * Z.to_nat n) sy)) /\
      executed r (for_stmt uniform n) lastc (sx, sy) =
      (Ok c, (advance (r * Z.to_nat n) sx, advance (r * Z.to_nat n) sy)) /\
      option_map np_sum m = c.
Proof.
  intros Hn. induction r as [|r IH]; intros sx sy lastm lastc Hlast.
  - exists lastm, lastc. simpl. unfold ret. auto.
  - simpl executed. unfold bind. rewrite (vectorized_stmt_eq n sx sy Hn).
    rewrite (for_stmt_eq n sx sy).
    destruct (IH (advance (Z.to_nat n) sx) (advance (Z.to_nat n) sy)
                (Some (mask (fst (uniform_draws (Z.to_nat n) sx))
                            (fst (uniform_draws (Z.to_nat n) sy))))
                (Some (0 + inside_count (zip (fst (uniform_draws (Z.to_nat n) sx))
                                             (fst (uniform_draws (Z.to_nat n) sy))))))
      as (m & c & Hm & Hc & Hmc);
      [cbn [option_map]; rewrite np_sum_mask, Z.add_0_l; reflexivity|].
    exists m, c. split; [|split; [|exact Hmc]].
    + rewrite Hm, <- !advance_add. reflexivity.
    + rewrite Hc, <- !advance_add. reflexivity.
Qed.

(** X13. The timing cell times the same computation twice: with the two
    sources of its setup, [number] executions of the vectorized statement
    and [number] executions of the loop statement (n >= 0) end well, leave
    both sources number * n draws ahead, and the [count] the loop ends
    with is the sum of the [mask] the vectorized statement ends with. *)
Theorem timed_statements_agree (n : Z) (number : nat) (sx sy : RandomState) :
  0 <= n ->
  exists m c,
    executed number (vectorized_stmt uniform n) None (sx, sy) =
    (Ok m, (advance (number * Z.to_nat n) sx, advance (number * Z.to_nat n) sy)) /\
    executed number (for_stmt uniform n) None (sx, sy) =
    (Ok c, (advance (number * Z.to_nat n) sx, advance (number * Z.to_nat n) sy)) /\
    option_map np_sum m = c.
Proof. intros Hn. apply (executed_agree n number Hn sx sy None None). reflexivity. Qed.

End PiDraws.

(** * Further concrete runs *)

Section ConcreteMore.

Import MH Instances Cells PiCells MoreInstances.

Lemma on_pairs_is_proposal_density : is_proposal_density proposal_density_on_pairs.
Proof. intros a b. reflexivity. Qed.

Lemma walk_draws_once : forall cur, numel cur = 2%nat -> draws_exactly 1 (walk cur).
Proof. intros cur _. simpl. auto. Qed.

Lemma dead_candidate_rejected_witness :
  (only_at one four
     (fst (sample cycle_uniform (jump_to [four; one] (x start)) (rng (fresh 0%nat)))) =
   neg_infinity \/
   only_at one four
     (fst (sample cycle_uniform (jump_to [four; one] (x start)) (rng (fresh 0%nat)))) =
   nan) /\
  exists w',
    accept_reject cycle_uniform coarse_log (only_at one four) (jump_to [four; one])
      start (fresh 0%nat) = (Ok start, w') /\
    stdout w' = stdout (fresh 0%nat) /\
    forall i, iteration cycle_uniform coarse_log (only_at one four) (jump_to [four; one])
                i start (fresh 0%nat) = record i start w'.
Proof.
  split; [left; reflexivity|].
  apply (dead_candidate_rejected cycle_uniform coarse_log (only_at one four)
           (jump_to [four; one]) start (fresh 0%nat)).
  left. reflexivity.
Defined.

Lemma infinite_start_never_moves_witness :
  0 < 3 /\
  (peak_at one four [one; four] = S754_infinity false \/
   peak_at one four [one; four] = nan) /\
  exists w',
    metropolis_hastings cycle_uniform coarse_log (peak_at one four) walk
      [one; four] 3 (fresh 0%nat) =
    (Ok {| row0 := replicate (Z.to_nat 3) one; row1 := replicate (Z.to_nat 3) four |}, w') /\
    stdout w' = stdout (fresh 0%nat) ++ [Accepted_pct 0 3].
Proof.
  split; [lia|]. split; [left; reflexivity|].
  apply (infinite_start_never_moves cycle_uniform coarse_log (peak_at one four) walk
           one four 3 (fresh 0%nat)); [lia | left; reflexivity].
Defined.

Lemma infinite_candidate_accepted_witness :
  source_in_unit cycle_uniform /\
  log_negative_on_unit coarse_log /\
  peak_at one one
    (fst (sample cycle_uniform (jump_to [one; one] (x start)) (rng (fresh 0%nat)))) =
  S754_infinity false /\
  (is_finite (peak_at one one (x start)) = true \/
   peak_at one one (x start) = neg_infinity) /\
  exists w',
    accept_reject cycle_uniform coarse_log (peak_at one one) (jump_to [one; one])
      start (fresh 0%nat) =
    (Ok {| x := fst (sample cycle_uniform (jump_to [one; one] (x start))
                       (rng (fresh 0%nat)));
           chain := chain start;
           accepted := accepted start + 1 |}, w') /\
    stdout w' = stdout (fresh 0%nat).
Proof.
  split; [exact cycle_in_unit|]. split; [exact coarse_log_negative|].
  split; [reflexivity|]. split; [left; reflexivity|].
  apply (infinite_candidate_accepted cycle_uniform coarse_log (peak_at one one)
           (jump_to [one; one]) start (fresh 0%nat));
    [exact cycle_in_unit | exact coarse_log_negative | reflexivity | left; reflexivity].
Defined.

Lemma longer_run_extends_witness :
  0 < 2 <= 4 /\
  numel [one; four] = 2%nat /\
  keeps_two cycle_uniform walk /\
  exists ck cn wk wn,
    metropolis_hastings cycle_uniform coarse_log (flat zero) walk [one; four] 2
      (fresh 0%nat) = (Ok ck, wk) /\
    metropolis_hastings cycle_uniform coarse_log (flat zero) walk [one; four] 4
      (fresh 0%nat) = (Ok cn, wn) /\
    length (row0 ck) = Z.to_nat 2 /\
    length (row0 cn) = Z.to_nat 4 /\
    forall j, (j < Z.to_nat 2)%nat -> column ck j = column cn j.
Proof.
  split; [lia|]. split; [reflexivity|]. split; [exact (walk_keeps_two _)|].
  apply (longer_run_extends cycle_uniform coarse_log (flat zero) walk [one; four] 2 4
           (fresh 0%nat)); [lia | reflexivity | exact (walk_keeps_two _)].
Defined.

Lemma run_draws_witness :
  0 < 3 /\
  numel [one; four] = 2%nat /\
  keeps_two cycle_uniform walk /\
  (forall cur, numel cur = 2%nat -> draws_exactly 1 (walk cur)) /\
  exists c w',
    metropolis_hastings cycle_uniform coarse_log (flat zero) walk [one; four] 3
      (fresh 0%nat) = (Ok c, w') /\
    rng w' = advance cycle_uniform (Z.to_nat 3 * (1 + 1)) (rng (fresh 0%nat)).
Proof.
  split; [lia|]. split; [reflexivity|]. split; [exact (walk_keeps_two _)|].
  split; [exact walk_draws_once|].
  apply (run_draws cycle_uniform coarse_log (flat zero) walk 1 [one; four] 3
           (fresh 0%nat));
    [lia | reflexivity | exact (walk_keeps_two _) | exact walk_draws_once].
Defined.

Lemma notebook_proposal_run_witness :
  is_proposal_density proposal_density_on_pairs /\
  0 < 20000 /\
  numel [one; two] = 2%nat /\
  keeps_two cycle_uniform proposal_density_on_pairs /\
  exists c w',
    metropolis_hastings cycle_uniform coarse_log (flat zero) proposal_density_on_pairs
      [one; two] 20000 (fresh 0%nat) = (Ok c, w') /\
    length (row0 c) = Z.to_nat 20000 /\
    length (row1 c) = Z.to_nat 20000 /\
    rng w' = advance cycle_uniform (3 * Z.to_nat 20000) (rng (fresh 0%nat)).
Proof.
  split; [exact on_pairs_is_proposal_density|]. split; [lia|]. split; [reflexivity|].
  apply (notebook_proposal_run cycle_uniform coarse_log (flat zero)
           proposal_density_on_pairs [one; two] 20000 (fresh 0%nat));
    [exact on_pairs_is_proposal_density | lia | reflexivity].
Defined.

Lemma gaps_of_run_witness :
  0 < 20000 /\
  numel [one; two] = 2%nat /\
  keeps_two cycle_uniform proposal_density_on_pairs /\
  exists c w' g,
    metropolis_hastings cycle_uniform coarse_log (flat zero) proposal_density_on_pairs
      [one; two] 20000 (fresh 0%nat) = (Ok c, w') /\
    gaps c = Ok g /\
    length (row0 g) = ((Z.to_nat 20000 - Z.to_nat 10000 + 9) / 10)%nat /\
    length (row1 g) = ((Z.to_nat 20000 - Z.to_nat 10000 + 9) / 10)%nat /\
    forall j, (Z.to_nat 10000 + 10 * j < Z.to_nat 20000)%nat ->
      is_Some (column g j) /\
      column g j =
      state_after cycle_uniform coarse_log (flat zero) proposal_density_on_pairs
        [one; two] 20000 (S (Z.to_nat 10000 + 10 * j)) (fresh 0%nat).
Proof.
  split; [lia|]. split; [reflexivity|].
  split; [exact (proposal_density_keeps_two _ _ on_pairs_is_proposal_density)|].
  apply (gaps_of_run cycle_uniform coarse_log (flat zero) proposal_density_on_pairs
           [one; two] 20000 (fresh 0%nat));
    [lia | reflexivity
    | exact (proposal_density_keeps_two _ _ on_pairs_is_proposal_density)].
Defined.

Lemma scatter_is_the_counted_points_witness :
  0 <= 2 /\
  exists pts,
    pts = List.filter Pi.in_quarter_circle
            (Pi.points_vectorized tape_uniform (Z.to_nat 2) tape_vec) /\
    vectorized_cell tape_uniform 2 tape_vec =
    (Ok (fmul (fdiv (of_int (Z.of_nat (length pts))) (of_int 2)) four, pts),
     snd (Pi.vectorized tape_uniform 2 tape_vec)) /\
    fst (Pi.vectorized tape_uniform 2 tape_vec) =
    Ok (fmul (fdiv (of_int (Z.of_nat (length pts))) (of_int 2)) four) /\
    0 <= Z.of_nat (length pts) <= 2.
Proof.
  split; [lia|].
  apply (scatter_is_the_counted_points tape_uniform 2 tape_vec). lia.
Defined.

Lemma timed_statements_agree_witness :
  0 <= 2 /\
  exists m c,
    executed 2 (vectorized_stmt tape_uniform 2) None (tape_vec, tape_loop) =
    (Ok m, (advance tape_uniform (2 * Z.to_nat 2) tape_vec,
            advance tape_uniform (2 * Z.to_nat 2) tape_loop)) /\
    executed 2 (for_stmt tape_uniform 2) None (tape_vec, tape_loop) =
    (Ok c, (advance tape_uniform (2 * Z.to_nat 2) tape_vec,
            advance tape_uniform (2 * Z.to_nat 2) tape_loop)) /\
    option_map Pi.np_sum m = c.
Proof.
  split; [lia|].
  apply (timed_statements_agree tape_uniform 2 2 tape_vec tape_loop). lia.
Defined.

Lemma pi_cells_nonpositive_witness :
  -3 <= 0 /\
  snd (Pi.vectorized tape_uniform (-3) tape_vec) = tape_vec /\
  snd (Pi.for_loop tape_uniform (-3) tape_vec) = tape_vec /\
  (-3 < 0 /\ fst (Pi.vectorized tape_uniform (-3) tape_vec) = Raise ValueError /\
     (exists v, fst (Pi.for_loop tape_uniform (-3) tape_vec) = Ok v)
   \/
   -3 = 0 /\ fst (Pi.vectorized tape_uniform (-3) tape_vec) = Ok nan /\
     fst (Pi.for_loop tape_uniform (-3) tape_vec) = Raise ZeroDivisionError).
Proof.
  split; [lia|].
  apply (pi_cells_nonpositive tape_uniform (-3) tape_vec). lia.
Defined.

End ConcreteMore.
